(** * ChatAI: a shallow embedding of [ChatAI.py]

    The chat client keeps one global list [conversation] of message
    dictionaries, wraps their text for a small display, and performs one
    blocking request per prompt.  This file embeds those functions and
    proves properties of them.

    - Python strings are lists of characters ([str]).
    - The message dictionaries live in a heap of objects; [conversation]
      holds references, so that filling the placeholder through the local
      variable [bot_response_entry] is seen through the list.
    - The device ([Display], [UIOverlay], [Beeper], WLAN, [requests]) is
      modelled by logs the functions append to and by inputs they read. *)

From Stdlib Require Import ZArith Ascii String Lia.
From stdpp Require Import base tactics option list pretty.

Local Open Scope Z_scope.

(** ** Python strings *)

Abbreviation str := (list ascii).

(** A literal. *)
Notation "'#' s" := (list_ascii_of_string s) (at level 1, format "'#' s").

Definition space : ascii := " "%char.

(** [str.isspace] on one character (code points below 256): tab, line
    feed, vertical tab, form feed, carriage return, the four separators
    0x1c to 0x1f, space, 0x85 and 0xa0. *)
Definition isspace (c : ascii) : bool :=
  let n := nat_of_ascii c in
  ((9 <=? n) && (n <=? 13) || (28 <=? n) && (n <=? 32)
   || (n =? 133) || (n =? 160))%nat.

Definition is_space (c : ascii) : bool := Ascii.eqb c space.

(** Truthiness of a string: [if s:]. *)
Definition truthy (s : str) : bool :=
  match s with [] => false | _ :: _ => true end.

(** [s.split(sep)] for a one-character separator given as a predicate;
    the result always has at least one element. *)
Fixpoint split_on (p : ascii -> bool) (s : str) : list str :=
  match s with
  | [] => [[]]
  | c :: rest =>
      if p c then [] :: split_on p rest
      else match split_on p rest with
           | w :: ws => (c :: w) :: ws
           | [] => [[c]]
           end
  end.

(** [s.split(' ')]. *)
Definition split_space (s : str) : list str := split_on is_space s.

(** [s.split()]: maximal runs of non-whitespace characters. *)
Definition tokens (s : str) : list str :=
  List.filter truthy (split_on isspace s).

Fixpoint lstrip (s : str) : str :=
  match s with
  | c :: rest => if isspace c then lstrip rest else s
  | [] => []
  end.

(** [s.strip()]. *)
Definition strip (s : str) : str := rev (lstrip (rev (lstrip s))).

(** [' '.join(lines)]. *)
Fixpoint join_space (lines : list str) : str :=
  match lines with
  | [] => []
  | [l] => l
  | l :: ls => l ++ space :: join_space ls
  end.

(** ** Text layout: [wrap_text] *)

Section Layout.

(** [d.get_total_width], the pixel width of a string in the display's
    font. *)
Variable get_total_width : str -> Z.

(** The inner loop over the characters of a word wider than the line:
    [temp_word_part] grows while it fits, and is flushed to [lines]
    when the next character does not fit. *)
Fixpoint split_long (width : Z) (word : str) (lines : list str)
    (temp_word_part : str) : list str * str :=
  match word with
  | [] => (lines, temp_word_part)
  | char :: rest =>
      if get_total_width (temp_word_part ++ [char]) <=? width
      then split_long width rest lines (temp_word_part ++ [char])
      else split_long width rest
             (if truthy temp_word_part then lines ++ [temp_word_part]
              else lines)
             [char]
  end.

(** One iteration of [for word in text_str.split(' ')] on the pair
    ([lines], [current_line]). *)
Definition wrap_word (width : Z) (st : list str * str) (word : str)
    : list str * str :=
  let '(lines, current_line) := st in
  if width <? get_total_width word then
    let '(lines1, temp_word_part) := split_long width word lines [] in
    ((if truthy temp_word_part then lines1 ++ [temp_word_part]
      else lines1), [])
  else
    let candidate :=
      current_line ++ (if truthy current_line then [space] else [])
                   ++ word in
    if get_total_width candidate <=? width
    then (lines, candidate)
    else ((if truthy current_line then lines ++ [strip current_line]
           else lines), word).

Definition wrap_words (width : Z) (words : list str)
    (st : list str * str) : list str * str :=
  fold_left (wrap_word width) words st.

Definition wrap_text (text : str) (width : Z) : list str :=
  let '(lines, current_line) :=
    wrap_words width (split_space text) ([], []) in
  if truthy current_line then lines ++ [strip current_line] else lines.

End Layout.

(** A fixed-pitch font, eight pixels per character. *)
Definition fixed8 (s : str) : Z := 8 * Z.of_nat (length s).

(** ** Messages and the object heap *)

Inductive Role := user | model.

(** A message dictionary [{"role": r, "parts": [{"text": t}]}]. *)
Record entry := Entry { role : Role; text : str }.

Global Instance Role_eq_dec : EqDecision Role.
Proof. solve_decision. Defined.

Global Instance entry_eq_dec : EqDecision entry.
Proof. solve_decision. Defined.

Definition SYSTEM_PROMPT : entry :=
  Entry user #"You are a helpful and friendly assistant designed for children aged 10-12, running on very small device M5 CardPuter. Use simple language and explain things clearly. Answer in one short sentense.".

Definition MAX_CONVERSATION_HISTORY : nat := 5.

(** ** Values returned by [json.loads] *)

#[warnings="-register-all"]
Inductive json :=
| JNull
| JBool (b : bool)
| JNum (n : Z)
| JStr (s : str)
| JArr (items : list json)
| JObj (fields : list (str * json)).

Inductive exn :=
| TypeError
| KeyError
| IndexError
| JSONDecodeError
| UnicodeDecodeError
| RequestException (detail : str).

(** A computation that returns or raises. *)
Definition result (A : Type) := (exn + A)%type.
Definition ret {A} (a : A) : result A := inr a.
Definition raise {A} (e : exn) : result A := inl e.
Definition bind {A B} (m : result A) (k : A -> result B) : result B :=
  match m with inl e => inl e | inr a => k a end.

Notation "x <- m ;; k" := (bind m (fun x => k))
  (at level 62, m at next level, right associativity).

(** [a and b] on computations: [b] is evaluated only when [a] is true. *)
Definition and_then (a b : result bool) : result bool :=
  x <- a ;; if x then b else ret false.

Infix "&&>" := and_then (at level 41, right associativity).

Definition str_eqb (a b : str) : bool := bool_decide (a = b).

(** [needle in hay] on strings. *)
Fixpoint is_prefix (p s : str) : bool :=
  match p, s with
  | [], _ => true
  | a :: p', b :: s' => Ascii.eqb a b && is_prefix p' s'
  | _ :: _, [] => false
  end.

Fixpoint is_substring (needle hay : str) : bool :=
  is_prefix needle hay
  || match hay with [] => false | _ :: hay' => is_substring needle hay' end.

(** Dictionary lookup; [fields] are the items of a Python dict, whose
    keys are pairwise distinct. *)
Fixpoint lookup_key (key : str) (fields : list (str * json)) : option json :=
  match fields with
  | [] => None
  | (k, v) :: rest => if str_eqb key k then Some v else lookup_key key rest
  end.

(** [key in v] for a string [key]. *)
Definition py_in (key : str) (v : json) : result bool :=
  match v with
  | JObj fields => ret (bool_decide (is_Some (lookup_key key fields)))
  | JArr items =>
      ret (existsb (fun x => match x with JStr s => str_eqb key s
                                     | _ => false end) items)
  | JStr s => ret (is_substring key s)
  | _ => raise TypeError
  end.

(** [len(v)]. *)
Definition py_len (v : json) : result nat :=
  match v with
  | JObj fields => ret (length fields)
  | JArr items => ret (length items)
  | JStr s => ret (length s)
  | _ => raise TypeError
  end.

(** [v[key]] for a string [key]. *)
Definition py_item (v : json) (key : str) : result json :=
  match v with
  | JObj fields =>
      match lookup_key key fields with
      | Some x => ret x
      | None => raise KeyError
      end
  | _ => raise TypeError
  end.

(** [v[0]]; a dict from [json.loads] has string keys only. *)
Definition py_first (v : json) : result json :=
  match v with
  | JArr (x :: _) => ret x
  | JArr [] => raise IndexError
  | JStr (c :: _) => ret (JStr [c])
  | JStr [] => raise IndexError
  | JObj _ => raise KeyError
  | _ => raise TypeError
  end.

Definition candidate0 (data : json) : result json :=
  c <- py_item data #"candidates" ;; py_first c.

Definition content0 (data : json) : result json :=
  c <- candidate0 data ;; py_item c #"content".

Definition part0 (data : json) : result json :=
  c <- content0 data ;; p <- py_item c #"parts" ;; py_first p.

(** The condition of the [if] that guards the success branch. *)
Definition has_text (data : json) : result bool :=
  py_in #"candidates" data
  &&> (n <- (c <- py_item data #"candidates" ;; py_len c) ;;
       ret (0 <? n)%nat)
  &&> (c <- candidate0 data ;; py_in #"content" c)
  &&> (c <- content0 data ;; py_in #"parts" c)
  &&> (n <- (c <- content0 data ;; p <- py_item c #"parts" ;; py_len p) ;;
       ret (0 <? n)%nat)
  &&> (p <- part0 data ;; py_in #"text" p).

(** [data['candidates'][0]['content']['parts'][0]['text']]. *)
Definition full_text_response (data : json) : result json :=
  p <- part0 data ;; py_item p #"text".

(** The body a reply has when the API answers with [t]. *)
Definition reply_body (t : json) : json :=
  JObj [(#"candidates",
         JArr [JObj [(#"content",
                      JObj [(#"parts", JArr [JObj [(#"text", t)]])])]])].

(** ** The device and the program state *)

(** Calls on the display [d]; colours are palette indices. *)
Inductive draw_op :=
| Rect (x y w h : Z) (color : Z) (fill : bool)
| Text (s : str) (x y : Z) (color : Z)
| Line (x0 y0 x1 y1 : Z) (color : Z)
| Show.

(** Messages passed to [ov.error]; [RequestFail e] is the text
    [f"Request Fail: {e}"] of the outer handler. *)
Inductive notice :=
| Error (msg : str)
| RequestFail (e : exn).

(** What is read from the hardware and the configuration:
    the font metric, [Device.display_width] and [display_height],
    [cfg['wifi_ssid']] and [cfg['wifi_pass']] (empty when unset), and the
    answer of the n-th call of [isconnected()]. *)
Record device := Device {
  get_total_width : str -> Z;
  display_width : Z;
  display_height : Z;
  wifi_ssid : str;
  wifi_pass : str;
  isconnected : nat -> bool
}.

(** The body sent by [requests.post], before serialisation. *)
Record payload := Payload { contents : list entry; maxOutputTokens : Z }.

(** [r.content]: bytes that do not decode as UTF-8, or the decoded text
    with the value [json.loads] gives for it ([None] when it raises
    [JSONDecodeError]). *)
Inductive content :=
| Undecodable
| Decoded (txt : str) (parsed : option json).

(** The outcome of [requests.post]. *)
Inductive outcome :=
| Raises (detail : str)
| Response (status_code : Z) (body : content).

Record state := State {
  heap : list entry;          (* the message objects, by address *)
  conversation : list nat;    (* the global list, as addresses *)
  screen : list draw_op;      (* display calls so far *)
  overlay : list notice;      (* [ov.error] calls so far *)
  posted : list payload;      (* [requests.post] calls so far *)
  beeps : nat;                (* [b.play] calls so far *)
  polls : nat;                (* [isconnected()] calls so far *)
  prompts : nat               (* [ov.text_entry] calls so far *)
}.

Definition set_heap (h : list entry) (s : state) : state :=
  State h (conversation s) (screen s) (overlay s) (posted s) (beeps s)
        (polls s) (prompts s).
Definition set_conversation (c : list nat) (s : state) : state :=
  State (heap s) c (screen s) (overlay s) (posted s) (beeps s) (polls s)
        (prompts s).
Definition draw (ops : list draw_op) (s : state) : state :=
  State (heap s) (conversation s) (screen s ++ ops) (overlay s) (posted s)
        (beeps s) (polls s) (prompts s).
Definition notify (n : notice) (s : state) : state :=
  State (heap s) (conversation s) (screen s) (overlay s ++ [n]) (posted s)
        (beeps s) (polls s) (prompts s).
Definition post (p : payload) (s : state) : state :=
  State (heap s) (conversation s) (screen s) (overlay s) (posted s ++ [p])
        (beeps s) (polls s) (prompts s).
Definition play (s : state) : state :=
  State (heap s) (conversation s) (screen s) (overlay s) (posted s)
        (S (beeps s)) (polls s) (prompts s).
(** [ov.text_entry("")] is opened. *)
Definition text_entry (s : state) : state :=
  State (heap s) (conversation s) (screen s) (overlay s) (posted s)
        (beeps s) (polls s) (S (prompts s)).

(** The object at an address; every address held by the program is
    allocated, the default is never read. *)
Definition deref (h : list entry) (r : nat) : entry :=
  default (Entry model []) (h !! r).

(** The conversation as a list of messages. *)
Definition view (s : state) : list entry :=
  map (deref (heap s)) (conversation s).

(** A new dictionary object: its address and the extended heap. *)
Definition alloc (e : entry) (s : state) : nat * state :=
  (length (heap s), set_heap (heap s ++ [e]) s).

(** [conversation.append(r)] and [conversation.pop()]. *)
Definition append (r : nat) (s : state) : state :=
  set_conversation (conversation s ++ [r]) s.
Definition pop (s : state) : state :=
  set_conversation (removelast (conversation s)) s.

(** [e['parts'][0]['text'] = t] on the object at [r]. *)
Definition set_text (r : nat) (t : str) (s : state) : state :=
  set_heap (alter (fun e => Entry (role e) t) r (heap s)) s.

(** [str(n)] for an integer. *)
Definition str_of_Z (n : Z) : str := #(pretty n).

Definition initial : state := State [] [] [] [] [] 0 0 0.

(** ** The program *)

Section Program.

Variable dev : device.

Local Abbreviation W := (display_width dev).
Local Abbreviation H := (display_height dev).

(** [nic.isconnected()]. *)
Definition poll (s : state) : bool * state :=
  (isconnected dev (polls s),
   State (heap s) (conversation s) (screen s) (overlay s) (posted s)
         (beeps s) (S (polls s)) (prompts s)).

(** The [while] loop of [connect_wifi]; [fuel] is what is left of
    [max_retries], so the loop ends after at most 20 rounds. *)
Fixpoint wait_link (fuel : nat) (retries : Z) (s : state) : state :=
  let '(up, s1) := poll s in
  if up then s1
  else match fuel with
       | O => s1
       | S fuel' =>
           wait_link fuel' (retries + 1)
             (draw [Text (#"Connecting WiFi... "
                            ++ str_of_Z (retries + 1))
                         2 (H - 10) 9; Show] s1)
       end.

Definition connect_wifi (s : state) : bool * state :=
  if negb (truthy (wifi_ssid dev)) || negb (truthy (wifi_pass dev))
  then (false, notify (Error #"No WiFi credentials!") s)
  else
    let '(up, s1) := poll s in
    if up then (true, s1)
    else
      let s2 := draw [Text #"Connecting WiFi..." 2 (H - 10) 9; Show] s1 in
      let s3 := wait_link 20 0 s2 in
      let s4 := draw [Rect 0 (H - 10) W 10 2 true; Show] s3 in
      let '(up', s5) := poll s4 in
      if up' then (true, s5)
      else (false, notify (Error #"WiFi connection failed!") s5).

(** The inner loop of [draw_ui] over the reversed lines of one
    message: the calls made and the value of [y] when it ends. *)
Fixpoint paint_lines (lines : list str) (y color : Z)
    : list draw_op * Z :=
  match lines with
  | [] => ([], y)
  | line :: rest =>
      let y1 := y - 10 in
      if y1 <? 14 then ([], y1)
      else let '(ops, y2) := paint_lines rest y1 color in
           (Text line 2 y1 color :: ops, y2)
  end.

(** The outer loop of [draw_ui] over the reversed conversation. *)
Fixpoint paint_entries (entries : list entry) (y : Z) : list draw_op :=
  match entries with
  | [] => []
  | e :: rest =>
      let color := match role e with user => 10 | model => 13 end in
      let prefix := match role e with
                    | user => #"You: " | model => #"Bot: " end in
      let lines := wrap_text (get_total_width dev) (prefix ++ text e)
                             (W - 4) in
      let '(ops, y1) := paint_lines (rev lines) y color in
      if y1 <? 14 then ops else ops ++ paint_entries rest y1
  end.

Definition draw_header : list draw_op :=
  [Rect 0 0 W H 2 true; Text #"Model: Flash-Lite" 2 2 9;
   Line 0 12 W 12 8].

(** The calls that paint the history. *)
Definition draw_history (s : state) : list draw_op :=
  let display_conversation :=
    filter (fun e => e ≠ SYSTEM_PROMPT) (view s) in
  paint_entries (rev display_conversation) (H - 4).

Definition draw_ui (s : state) : state :=
  draw (draw_header ++ draw_history s ++ [Show]) s.

(** The addresses of the stored messages that go into the payload:
    [actual_conversation_for_history[start_index:]]. *)
Definition payload_refs (s : state) : list nat :=
  let actual_conversation_for_history :=
    filter (fun r => deref (heap s) r ≠ SYSTEM_PROMPT) (conversation s) in
  let start_index :=
    Z.max 0 (Z.of_nat (length actual_conversation_for_history)
             - Z.of_nat MAX_CONVERSATION_HISTORY * 2) in
  drop (Z.to_nat start_index) actual_conversation_for_history.

Definition payload_contents (s : state) : list entry :=
  SYSTEM_PROMPT :: map (deref (heap s)) (payload_refs s).

(** The outer [except Exception as e] handler. *)
Definition request_failed (e : exn) (s : state) : state :=
  pop (notify (RequestFail e) s).

(** An exception raised in the inner [try]: [JSONDecodeError],
    [KeyError] and [IndexError] are caught there, the others reach the
    outer handler. *)
Definition parse_failed (e : exn) (s : state) : state :=
  match e with
  | JSONDecodeError | KeyError | IndexError =>
      notify (Error #"JSON Parse Error") s
  | _ => request_failed e s
  end.

(** [json.loads(r.content.decode('utf-8'))]. *)
Definition loads (body : content) : result json :=
  match body with
  | Undecodable => raise UnicodeDecodeError
  | Decoded _ None => raise JSONDecodeError
  | Decoded _ (Some data) => ret data
  end.

(** The inner [try] up to the choice of the branch: [Some v] when the
    condition holds and the text [v] was read, [None] for the [else]. *)
Definition read_reply (body : content) : result (option json) :=
  data <- loads body ;;
  ok <- has_text data ;;
  if ok then v <- full_text_response data ;; ret (Some v)
  else ret None.

(** The statements after [requests.post] returned [r]; [bot] is the
    address of [bot_response_entry]. *)
Definition handle_response (bot : nat) (status : Z) (body : content)
    (s : state) : state :=
  if negb (status =? 200) then
    let err_msg :=
      #"HTTP Error: " ++ str_of_Z status ++
      match body with
      | Decoded err_content _ =>
          if truthy err_content then #" - " ++ take 50 err_content
          else []
      | Undecodable => []
      end in
    pop (notify (Error err_msg) s)
  else
    match read_reply body with
    | inr (Some (JStr t)) => draw_ui (play (set_text bot t s))
    | inr (Some _) =>
        (* the value stored is not a string: [prefix + text] raises
           [TypeError] in [draw_ui], after the header was drawn *)
        request_failed TypeError (draw draw_header (play s))
    | inr None => notify (Error #"Bad API Response") s
    | inl e => parse_failed e s
    end.

(** The check at the head of [call_gemini_api]: whether the link is
    up, after an attempt to reconnect if it was not. *)
Definition network_check (s : state) : bool * state :=
  let '(up, s1) := poll s in
  if up then (true, s1) else connect_wifi s1.

(** [call_gemini_api]; [reply] is what [requests.post] does. *)
Definition call_gemini_api (reply : outcome) (s : state) : state :=
  let '(online, s2) := network_check s in
  if negb online then notify (Error #"API: No network!") s2
  else
    let '(bot, s3) := alloc (Entry model []) s2 in
    let payload_contents := payload_contents s3 in
    let s4 := append bot s3 in
    let s5 := post (Payload payload_contents 50) s4 in
    match reply with
    | Raises detail => request_failed (RequestException detail) s5
    | Response status body => handle_response bot status body s5
    end.

(** What happens in one round of the [while True] loop of [main]:
    the result of [ov.text_entry] if it is opened, what the transport
    does if a request is made, and what [kb.get_new_keys()] returns. *)
Record round := Round {
  typed : option str;
  reply : outcome;
  keys : list str
}.

(** The loop either goes on, with the flag [should_prompt_next], or the
    program has ended: [SystemExit] was raised, or [main] returned
    because the key is missing. *)
Inductive run :=
| Running (s : state) (should_prompt_next : bool)
| Exited (s : state).

(** The user's message is appended and the screen redrawn. *)
Definition say (current_prompt : str) (s : state) : state :=
  let '(msg, s1) := alloc (Entry user current_prompt) s in
  draw_ui (append msg s1).

(** The [if should_prompt_next:] block. *)
Definition prompt (r : round) (s : state) (should_prompt_next : bool)
    : state * bool :=
  if should_prompt_next then
    let s1 := text_entry s in
    match typed r with
    | None => (s1, false)
    | Some current_prompt =>
        if truthy current_prompt then
          (call_gemini_api (reply r) (say current_prompt s1), true)
        else (s1, true)
    end
  else (s, should_prompt_next).

(** [for k in kb.get_new_keys()]. *)
Fixpoint poll_keys (ks : list str) (s : state) (should_prompt_next : bool)
    : run :=
  match ks with
  | [] => Running s should_prompt_next
  | k :: rest =>
      if str_eqb k #"ESC" then Exited s
      else if str_eqb k #"ENT" && negb should_prompt_next
           then poll_keys rest s true
           else poll_keys rest s should_prompt_next
  end.

Definition main_round (r : round) (s : state) (should_prompt_next : bool)
    : run :=
  let '(s1, flag) := prompt r s should_prompt_next in
  poll_keys (keys r) s1 flag.

(** The loop over the rounds that are given. *)
Fixpoint main_loop (rounds : list round) (s : state)
    (should_prompt_next : bool) : run :=
  match rounds with
  | [] => Running s should_prompt_next
  | r :: rest =>
      match main_round r s should_prompt_next with
      | Running s1 flag => main_loop rest s1 flag
      | Exited s1 => Exited s1
      end
  end.

(** [main] up to the rounds given; [api_key] is [cfg['gemini_api_key']]
    (empty when unset). *)
Definition main (api_key : str) (rounds : list round) : run :=
  let s0 := draw [Rect 0 0 1 1 2 false; Show] initial in
  if negb (truthy api_key)
  then Exited (notify (Error #"Set gemini_api_key in config!") s0)
  else
    let '(_, s1) := connect_wifi s0 in
    main_loop rounds (draw_ui s1) true.

End Program.

(** A 240 x 135 display with a fixed-pitch font and a link that is up. *)
Definition cardputer : device :=
  Device fixed8 240 135 #"ssid" #"secret" (fun _ => true).

(** The same device with no link. *)
Definition offline : device :=
  Device fixed8 240 135 #"ssid" #"secret" (fun _ => false).

Definition ok_reply (t : str) : outcome :=
  Response 200 (Decoded [] (Some (reply_body (JStr t)))).

(** Status 200 with the body [{}]. *)
Definition empty_object_reply : outcome :=
  Response 200 (Decoded #"{}" (Some (JObj []))).

Definition state_of (r : run) : state :=
  match r with Running s _ | Exited s => s end.

(** ** States used in the statements *)

(** Every address in the conversation is allocated. *)
Definition wf (s : state) : Prop :=
  Forall (fun r => (r < length (heap s))%nat) (conversation s).

(** The part of the state that holds the conversation and the requests. *)
Definition store (s : state)
    : list entry * list nat * list payload * nat :=
  (heap s, conversation s, posted s, prompts s).

(** The state while [requests.post] runs: the placeholder is allocated
    and appended, and the payload, assembled before the append, is
    handed to the transport. *)
Definition sending (s : state) : state :=
  let '(bot, s3) := alloc (Entry model []) s in
  post (Payload (payload_contents s3) 50) (append bot s3).

(** A state with one message from the user. *)
Definition said (t : str) : state :=
  State [Entry user t] [0%nat] [] [] [] 0 0 0.

(** Six question and answer pairs. *)
Definition six_pairs : state :=
  State [Entry user #"q1"; Entry model #"a1"; Entry user #"q2";
         Entry model #"a2"; Entry user #"q3"; Entry model #"a3";
         Entry user #"q4"; Entry model #"a4"; Entry user #"q5";
         Entry model #"a5"; Entry user #"q6"; Entry model #"a6"]
        (seq 0 12) [] [] [] 0 0 0.

(** Twenty messages, more than the display has room for. *)
Definition twenty : state :=
  State (replicate 20 (Entry user #"hello")) (seq 0 20) [] [] [] 0 0 0.

(** A call that draws text does so at [y >= 14]. *)
Definition below_header (op : draw_op) : Prop :=
  match op with
  | Text _ _ y _ => 14 <= y
  | _ => False
  end.

(** ** The reply the specification expects *)

(** The member [key] of an object. *)
Definition field (key : str) (v : json) : option json :=
  match v with JObj fields => lookup_key key fields | _ => None end.

(** The first element of a non-empty array. *)
Definition first_item (v : json) : option json :=
  match v with JArr (x :: _) => Some x | _ => None end.

Definition as_str (v : json) : option str :=
  match v with JStr t => Some t | _ => None end.

(** The reply in the words of the specification, not of the program:
    [candidates[0].content.parts[0].text] is present at every level of
    nesting, that is, [data] is an object whose [candidates] is an array,
    the first candidate an object whose [content] is an object, whose
    [parts] is an array, the first part an object whose [text] is a
    string.  The program's own check is [has_text]; the two are compared
    in [read_reply_schema]. *)
Definition schema_text (data : json) : option str :=
  c ← field #"candidates" data; c0 ← first_item c;
  ct ← field #"content" c0; ps ← field #"parts" ct;
  p0 ← first_item ps; t ← field #"text" p0; as_str t.

(** ** Predicates on the lines of [wrap_text] *)

(** The tokens held by the loop state: those of the finished lines, then
    those of the line being filled. *)
Definition held (st : list str * str) : list str :=
  concat (map tokens st.1) ++ tokens st.2.

(** The characters of a string other than spaces. *)
Definition letters (s : str) : str := filter (fun c => c <> space) s.

(** The characters other than spaces that the loop state holds. *)
Definition painted (st : list str * str) : str :=
  letters (concat st.1) ++ letters st.2.

(** A string that begins with a character that is not whitespace. *)
Definition starts_clean (s : str) : Prop :=
  match s with c :: _ => isspace c = false | [] => False end.

(** A non-empty string with no whitespace at either end. *)
Definition clean (s : str) : Prop := starts_clean s /\ starts_clean (rev s).

Section Shapes.

Variable measure : str -> Z.
Variable width : Z.

(** A line is not empty, and fits unless it is one character wider than
    the limit. *)
Definition line_ok (line : str) : Prop :=
  line <> []
  /\ (measure line <= width \/ exists c, line = [c] /\ width < measure line).

(** The part of a long word that is being filled. *)
Definition part_ok (part : str) : Prop :=
  part = [] \/ measure part <= width \/ exists c, part = [c].

(** The line that is being filled: words that fit, and then spaces. *)
Definition current_ok (current_line : str) : Prop :=
  current_line = []
  \/ exists base k, current_line = base ++ replicate k space
                    /\ clean base /\ measure base <= width.

End Shapes.

(** Text in which every whitespace character is a plain space. *)
Definition plain_spaces (text : str) : Prop :=
  Forall (fun c => isspace c = true -> c = space) text.

(** The text "a", space, line feed. *)
Definition a_space_newline : str := ["a"; " "; "010"]%char.

Arguments str_of_Z : simpl never.

(** ** Further definitions used in the statements *)

(** [candidates[0].content.parts[0].text] of a reply, of whatever type,
    when every level on the way is an object or a non-empty array. *)
Definition schema_value (data : json) : option json :=
  c ← field #"candidates" data; c0 ← first_item c;
  ct ← field #"content" c0; ps ← field #"parts" ct;
  p0 ← first_item ps; field #"text" p0.

(** Whether [requests.post] returned status 200 with a body from which
    the reply text is read, so that the success branch is entered. *)
Definition text_was_read (reply : outcome) : bool :=
  match reply with
  | Response status body =>
      (status =? 200)
      && match read_reply body with inr (Some _) => true | _ => false end
  | Raises _ => false
  end.

(** What a request adds to the conversation, by the way it ends. *)
Definition reply_turn (reply : outcome) : list entry :=
  match reply with
  | Response status body =>
      if status =? 200 then
        match read_reply body with
        | inr (Some (JStr t)) => [Entry model t]
        | inr (Some _) => []
        | inr None => [Entry model []]
        | inl JSONDecodeError | inl KeyError | inl IndexError =>
            [Entry model []]
        | inl _ => []
        end
      else []
  | Raises _ => []
  end.

(** A JSON value that is [null], a boolean or a number. *)
Definition scalar (data : json) : bool :=
  match data with JNull | JBool _ | JNum _ => true | _ => false end.

(** The calls of the retry loop of [connect_wifi] that ran [fuel] times
    from the count [retries]: the message with the new count, and a
    [show], each time. *)
Fixpoint countdown (H : Z) (retries : Z) (fuel : nat) : list draw_op :=
  match fuel with
  | O => []
  | S fuel' =>
      Text (#"Connecting WiFi... " ++ str_of_Z (retries + 1)) 2 (H - 10) 9
        :: Show :: countdown H (retries + 1) fuel'
  end.

(** Both credentials are set. *)
Definition has_credentials (dev : device) : bool :=
  truthy (wifi_ssid dev) && truthy (wifi_pass dev).

(** The state in which the loop of [connect_wifi] ends. *)
Definition waited (dev : device) (s : state) : state :=
  wait_link dev 20 0
    (draw [Text #"Connecting WiFi..." 2 (display_height dev - 10) 9; Show]
          (poll dev s).2).

(** A link that is down for the first eight polls. *)
Definition slow_link : device :=
  Device fixed8 240 135 #"ssid" #"secret" (fun n => (8 <=? n)%nat).

(** A device on which the password is not set; the link is up. *)
Definition no_password : device :=
  Device fixed8 240 135 #"ssid" [] (fun _ => true).

(** The strings that a list of display calls draws. *)
Definition texts (ops : list draw_op) : list str :=
  omap (fun op => match op with Text line _ _ _ => Some line | _ => None end)
       ops.

(** The lines of one message on the display: the prefix for its role and
    its text, wrapped to the width of the display less the margins. *)
Definition lines_of (dev : device) (e : entry) : list str :=
  wrap_text (get_total_width dev)
    (match role e with user => #"You: " | model => #"Bot: " end ++ text e)
    (display_width dev - 4).

(** The messages that are shown. *)
Definition shown (s : state) : list entry :=
  filter (fun e => e <> SYSTEM_PROMPT) (view s).

(** The line that the loop of [wrap_text] builds from [current_line]
    while every candidate fits: a space and the word are added, the
    space only when the line is not empty. *)
Definition glue (current_line : str) (words : list str) : str :=
  fold_left
    (fun cur word => cur ++ (if truthy cur then [space] else []) ++ word)
    words current_line.

(** [p] occurs in [s] as a run of consecutive characters. *)
Definition piece (p s : str) : Prop := exists a b, s = a ++ p ++ b.

(** A text of spaces only. *)
Definition blank (text : str) : bool := forallb is_space text.

(** What every payload looks like: the persona first and only there, at
    most ten messages after it, and the output limit of 50 tokens. *)
Definition bounded (p : payload) : Prop :=
  head (contents p) = Some SYSTEM_PROMPT
  /\ Forall (fun e => e <> SYSTEM_PROMPT) (tail (contents p))
  /\ (length (contents p) <= 1 + 2 * MAX_CONVERSATION_HISTORY)%nat
  /\ maxOutputTokens p = 50.

(** A round in which neither ESC nor ENT is read. *)
Definition quiet (r : round) : Prop :=
  (#"ESC" ∉ keys r) /\ (#"ENT" ∉ keys r).

(** A line fits, or is a single character wider than the limit. *)
Definition within (measure : str -> Z) (width : Z) (line : str) : Prop :=
  measure line <= width \/ exists c, line = [c] /\ width < measure line.

(** The parts of a word that is cut by characters are as long as the
    width allows: none but the last fits any more with the first
    character of the next. *)
Definition greedy (measure : str -> Z) (width : Z) (parts : list str)
    : Prop :=
  forall i p q,
    parts !! i = Some p -> parts !! S i = Some q ->
    exists c rest, q = c :: rest /\ width < measure (p ++ [c]).

(** A measure under which stripping can widen a string: "ab" is wide
    and every other string has no width. *)
Definition odd_font (s : str) : Z :=
  if bool_decide (s = #"ab") then 100 else 0.

(** The text "ab", line feed. *)
Definition ab_newline : str := ["a"; "b"; "010"]%char.

(** The rounds in which the user enters "Hello", the reply is [{}], and
    the user enters "Again". *)
Definition hello_again : list round :=
  [Round (Some #"Hello") empty_object_reply [];
   Round (Some #"Again") (ok_reply #"Hi") []].

(** * Properties *)

(** ** Addresses and the heap *)

Lemma deref_app_lt h e r :
  (r < length h)%nat -> deref (h ++ [e]) r = deref h r.
Proof. intros Hr. unfold deref. by rewrite lookup_app_l. Qed.

Lemma deref_app_new h e : deref (h ++ [e]) (length h) = e.
Proof.
  unfold deref. rewrite lookup_app_r by lia.
  by rewrite Nat.sub_diag.
Qed.

Lemma map_deref_app h e refs :
  Forall (fun r => (r < length h)%nat) refs ->
  map (deref (h ++ [e])) refs = map (deref h) refs.
Proof.
  induction 1 as [|r refs Hr _ IH]; [done|].
  cbn. by rewrite deref_app_lt, IH.
Qed.

Lemma deref_alter_ne h f r r' :
  r <> r' -> deref (alter f r h) r' = deref h r'.
Proof. intros Hne. unfold deref. by rewrite list_lookup_alter_ne. Qed.

Lemma map_deref_alter h f bot refs :
  Forall (fun r => (r < bot)%nat) refs ->
  map (deref (alter f bot h)) refs = map (deref h) refs.
Proof.
  induction 1 as [|r refs Hr _ IH]; [done|].
  cbn. rewrite deref_alter_ne by lia. by rewrite IH.
Qed.

Lemma removelast_snoc {A} (l : list A) (x : A) : removelast (l ++ [x]) = l.
Proof. apply removelast_last. Qed.

Lemma wf_initial : wf initial.
Proof. constructor. Qed.

(** ** What the device calls leave alone *)

Section Frame.

Variable dev : device.

Lemma poll_store s : store (poll dev s).2 = store s.
Proof. done. Qed.

Lemma poll_overlay s : overlay (poll dev s).2 = overlay s.
Proof. done. Qed.

Lemma wait_link_store fuel retries s :
  store (wait_link dev fuel retries s) = store s.
Proof.
  revert retries s. induction fuel as [|fuel IH]; intros retries s; cbn.
  - by destruct (isconnected dev (polls s)).
  - destruct (isconnected dev (polls s)); [done|]. by rewrite IH.
Qed.

Lemma wait_link_overlay fuel retries s :
  overlay (wait_link dev fuel retries s) = overlay s.
Proof.
  revert retries s. induction fuel as [|fuel IH]; intros retries s; cbn.
  - by destruct (isconnected dev (polls s)).
  - destruct (isconnected dev (polls s)); [done|]. by rewrite IH.
Qed.

Lemma connect_wifi_frame s :
  store (connect_wifi dev s).2 = store s
  /\ ((connect_wifi dev s).1 = true ->
      overlay (connect_wifi dev s).2 = overlay s).
Proof.
  unfold connect_wifi.
  destruct (negb _ || negb _); [done|].
  destruct (poll dev s) as [up s1] eqn:E1.
  assert (store s1 = store s /\ overlay s1 = overlay s) as [Hs1 Ho1].
  { unfold poll in E1. by injection E1 as _ <-. }
  destruct up; [done|].
  match goal with |- context [wait_link dev ?f ?r ?t] =>
    pose proof (wait_link_store f r t) as Hw;
    pose proof (wait_link_overlay f r t) as Hv;
    change (store t) with (store s1) in Hw;
    change (overlay t) with (overlay s1) in Hv;
    generalize dependent (wait_link dev f r t) end.
  intros s3 Hw Hv. unfold poll. cbv beta iota zeta.
  destruct (isconnected dev _); cbn [fst snd]; (split; [|intros; try done]).
  all: unfold store in *;
    cbn [heap conversation posted prompts overlay draw notify];
    congruence.
Qed.

Lemma connect_wifi_store s : store (connect_wifi dev s).2 = store s.
Proof. apply connect_wifi_frame. Qed.

Lemma connect_wifi_true_overlay s :
  (connect_wifi dev s).1 = true ->
  overlay (connect_wifi dev s).2 = overlay s.
Proof. apply connect_wifi_frame. Qed.

Lemma network_check_store s : store (network_check dev s).2 = store s.
Proof.
  unfold network_check. cbn.
  destruct (isconnected dev (polls s)); [done|].
  by rewrite connect_wifi_store.
Qed.

Lemma network_check_true_overlay s :
  (network_check dev s).1 = true ->
  overlay (network_check dev s).2 = overlay s.
Proof.
  unfold network_check. cbn.
  destruct (isconnected dev (polls s)); [done|].
  intros Hc. by rewrite connect_wifi_true_overlay.
Qed.

End Frame.

(** After the check the heap, the conversation and the posted requests
    are those before it. *)
Tactic Notation "checked" constr(dev) constr(s) "as" ident(s2) :=
  let Hstore := fresh "Hstore" in
  pose proof (network_check_store dev s) as Hstore;
  set (s2 := (network_check dev s).2) in *;
  unfold store in Hstore;
  injection Hstore as Hh Hc Hp Hq.

(** ** The request *)

Section Request.

Variable dev : device.

Lemma call_online reply s :
  (network_check dev s).1 = true ->
  call_gemini_api dev reply s =
    let s2 := (network_check dev s).2 in
    match reply with
    | Raises detail => request_failed (RequestException detail) (sending s2)
    | Response status body =>
        handle_response dev (length (heap s2)) status body (sending s2)
    end.
Proof.
  intros Hon. unfold call_gemini_api.
  destruct (network_check dev s) as [online s2]. cbn in Hon. by subst.
Qed.

Lemma call_offline reply s :
  (network_check dev s).1 = false ->
  call_gemini_api dev reply s =
    notify (Error #"API: No network!") (network_check dev s).2.
Proof.
  intros Hoff. unfold call_gemini_api.
  destruct (network_check dev s) as [online s2]. cbn in Hoff. by subst.
Qed.

Lemma filter_map_deref h (refs : list nat) :
  map (deref h) (filter (fun r => deref h r <> SYSTEM_PROMPT) refs)
  = filter (fun e => e <> SYSTEM_PROMPT) (map (deref h) refs).
Proof.
  induction refs as [|r refs IH]; [done|].
  cbn [map]. rewrite !filter_cons.
  destruct (decide (deref h r <> SYSTEM_PROMPT)); cbn [map]; by rewrite IH.
Qed.

Lemma filter_deref_app h e (refs : list nat) :
  Forall (fun r => (r < length h)%nat) refs ->
  filter (fun r => deref (h ++ [e]) r <> SYSTEM_PROMPT) refs
  = filter (fun r => deref h r <> SYSTEM_PROMPT) refs.
Proof.
  induction 1 as [|r refs Hr _ IH]; [done|].
  rewrite !filter_cons, IH, deref_app_lt by done. done.
Qed.

Lemma start_index_nat (n : nat) :
  Z.to_nat (Z.max 0 (Z.of_nat n - Z.of_nat MAX_CONVERSATION_HISTORY * 2))
  = (n - 2 * MAX_CONVERSATION_HISTORY)%nat.
Proof. unfold MAX_CONVERSATION_HISTORY. lia. Qed.

(** The payload is the persona followed by the last ten stored
    messages that differ from the persona. *)
Lemma payload_contents_view s :
  let stored := filter (fun e => e <> SYSTEM_PROMPT) (view s) in
  payload_contents s
  = SYSTEM_PROMPT
      :: drop (length stored - 2 * MAX_CONVERSATION_HISTORY) stored.
Proof.
  unfold payload_contents, payload_refs, view. cbv zeta.
  rewrite start_index_nat, <- skipn_map, filter_map_deref.
  by rewrite <- (length_map (deref (heap s))), filter_map_deref.
Qed.

Lemma payload_refs_alloc s e :
  wf s -> payload_refs (alloc e s).2 = payload_refs s.
Proof.
  intros Hwf. unfold payload_refs. cbn [alloc snd set_heap heap conversation].
  by rewrite filter_deref_app.
Qed.

Lemma payload_refs_subseteq s : payload_refs s ⊆ conversation s.
Proof.
  unfold payload_refs. cbv zeta. intros r Hr.
  apply subseteq_drop in Hr.
  by apply list_elem_of_filter in Hr as [_ ?].
Qed.

Lemma payload_contents_alloc s e :
  wf s -> payload_contents (alloc e s).2 = payload_contents s.
Proof.
  intros Hwf. unfold payload_contents. rewrite payload_refs_alloc by done.
  f_equal. cbn [alloc snd set_heap heap]. apply map_deref_app.
  apply Forall_forall. intros r Hr.
  apply payload_refs_subseteq in Hr.
  unfold wf in Hwf. rewrite Forall_forall in Hwf. by apply Hwf.
Qed.

Lemma sending_heap s : heap (sending s) = heap s ++ [Entry model []].
Proof. done. Qed.

Lemma sending_conversation s :
  conversation (sending s) = conversation s ++ [length (heap s)].
Proof. done. Qed.

Lemma sending_overlay s : overlay (sending s) = overlay s.
Proof. done. Qed.

Lemma sending_posted s :
  wf s -> posted (sending s) = posted s ++ [Payload (payload_contents s) 50].
Proof.
  intros Hwf.
  pose proof (payload_contents_alloc s (Entry model []) Hwf) as E.
  unfold sending, alloc in *. cbn [snd] in E.
  cbn [post posted append set_conversation set_heap]. by rewrite E.
Qed.

(** While the request is in flight the conversation is the one before
    it followed by the empty placeholder. *)
Lemma sending_view s :
  wf s -> view (sending s) = view s ++ [Entry model []].
Proof.
  intros Hwf. unfold view. rewrite sending_heap, sending_conversation.
  rewrite map_app. cbn [map]. by rewrite deref_app_new, map_deref_app.
Qed.

End Request.

Lemma wf_said t : wf (said t).
Proof. repeat constructor. Qed.

(** *** No network *)

(** C8: when the link is down on entry and [connect_wifi] fails, the
    request is abandoned with the notice "API: No network!" and without
    any change to the store: the heap of messages, the conversation list
    and the list of posted requests are what they were, so no placeholder
    was appended and no message was changed or removed. *)
Theorem no_network_no_mutation dev reply s :
  isconnected dev (polls s) = false ->
  (connect_wifi dev (poll dev s).2).1 = false ->
  let s' := call_gemini_api dev reply s in
  heap s' = heap s /\ conversation s' = conversation s
  /\ view s' = view s /\ posted s' = posted s
  /\ last (overlay s') = Some (Error #"API: No network!").
Proof.
  intros Hdown Hfail s'.
  assert ((network_check dev s).1 = false) as Hoff.
  { unfold network_check. cbn [poll]. cbv beta iota. rewrite Hdown.
    exact Hfail. }
  assert (store s' = store s) as Hst.
  { unfold s'. rewrite call_offline by done.
    rewrite <- (network_check_store dev s). done. }
  unfold store in Hst. injection Hst as Hh Hc Hp _.
  repeat split; try done.
  - unfold view. by rewrite Hh, Hc.
  - unfold s'. rewrite call_offline by done.
    cbn [notify overlay]. apply last_snoc.
Qed.

Lemma no_network_no_mutation_witness :
  let s' := call_gemini_api offline (Raises []) (said #"Hello") in
  heap s' = heap (said #"Hello")
  /\ conversation s' = conversation (said #"Hello")
  /\ view s' = [Entry user #"Hello"] /\ posted s' = []
  /\ last (overlay s') = Some (Error #"API: No network!").
Proof.
  apply (no_network_no_mutation offline (Raises []) (said #"Hello"));
    reflexivity.
Defined.

(** *** A status other than 200 *)

(** C6: when the transport returns a status other than 200, the
    placeholder is popped, so the conversation list is the one the
    request started with and shows the same messages; one notice is
    added, whose text is "HTTP Error: " followed by the status code and,
    when the body decodes to a non-empty text, " - " and the first 50
    characters of it, so that at most 53 characters follow the code. *)
Theorem http_error_rolls_back dev s status body :
  wf s ->
  (network_check dev s).1 = true ->
  status <> 200 ->
  let s' := call_gemini_api dev (Response status body) s in
  conversation s' = conversation s
  /\ view s' = view s
  /\ exists tail,
       overlay s' = overlay s
                      ++ [Error (#"HTTP Error: " ++ str_of_Z status ++ tail)]
       /\ (tail = []
           \/ exists err_content parsed,
                body = Decoded err_content parsed
                /\ tail = #" - " ++ take 50 err_content)
       /\ (length tail <= 53)%nat.
Proof.
  intros Hwf Hon Hst s'. unfold s'. rewrite call_online by done. cbv zeta.
  pose proof (network_check_true_overlay dev s Hon) as Hov.
  checked dev s as s2.
  assert (wf s2) as Hwf2 by (unfold wf; by rewrite Hh, Hc).
  unfold handle_response.
  destruct (Z.eqb_spec status 200) as [|_]; [done|]. cbn [negb].
  unfold view.
  cbn [pop notify conversation heap overlay set_conversation].
  rewrite sending_conversation, removelast_snoc, sending_heap,
    sending_overlay, Hov, Hc, Hh.
  split; [done|]. split.
  { apply map_deref_app. exact Hwf. }
  eexists. split; [reflexivity|].
  destruct body as [|err_content parsed].
  - split; [by left|cbn; lia].
  - destruct err_content as [|c err_content]; cbn [truthy].
    + split; [by left|cbn; lia].
    + split; [right; by eexists _, _|].
      rewrite length_app, length_take. cbn [length list_ascii_of_string].
      lia.
Qed.

Lemma http_error_rolls_back_witness :
  let s' := call_gemini_api cardputer (Response 503 (Decoded [] None))
              (said #"Hello") in
  conversation s' = conversation (said #"Hello")
  /\ view s' = view (said #"Hello")
  /\ exists tail,
       overlay s' = overlay (said #"Hello")
                      ++ [Error (#"HTTP Error: " ++ str_of_Z 503 ++ tail)]
       /\ (tail = []
           \/ exists err_content parsed,
                Decoded [] None = Decoded err_content parsed
                /\ tail = #" - " ++ take 50 err_content)
       /\ (length tail <= 53)%nat.
Proof.
  apply (http_error_rolls_back cardputer (said #"Hello") 503
           (Decoded [] None)); [apply wf_said | reflexivity | lia].
Defined.

(** Status 503 with an empty body: the notice reads "HTTP Error: 503". *)
Example http_503 :
  let s' := call_gemini_api cardputer (Response 503 (Decoded [] None))
              (said #"Hello") in
  overlay s' = [Error #"HTTP Error: 503"]
  /\ view s' = [Entry user #"Hello"].
Proof. split; reflexivity. Qed.

(** A long error body is cut after 50 characters. *)
Example http_404_long_body :
  let body := #"0123456789012345678901234567890123456789012345678901234567890123456789" in
  overlay (call_gemini_api cardputer (Response 404 (Decoded body None))
             (said #"Hello"))
  = [Error #"HTTP Error: 404 - 01234567890123456789012345678901234567890123456789"].
Proof. reflexivity. Qed.

(** *** The control loop *)

Lemma poll_keys_prompting ks s :
  poll_keys ks s true
  = if existsb (fun k => str_eqb k #"ESC") ks then Exited s
    else Running s true.
Proof.
  induction ks as [|k ks IH]; [done|].
  cbn [poll_keys existsb].
  destruct (str_eqb k #"ESC"); [done|].
  cbn [negb orb]. rewrite andb_false_r. exact IH.
Qed.

Lemma handle_response_prompts dev bot status body s :
  prompts (handle_response dev bot status body s) = prompts s.
Proof.
  unfold handle_response. destruct (negb (status =? 200)); [done|].
  destruct (read_reply body) as [e|[v|]]; [by destruct e| |done].
  by destruct v.
Qed.

Lemma call_prompts dev reply s :
  prompts (call_gemini_api dev reply s) = prompts s.
Proof.
  pose proof (network_check_store dev s) as Hstore.
  unfold store in Hstore. injection Hstore as _ _ _ Hp.
  destruct (network_check dev s).1 eqn:Hon.
  - rewrite call_online by done. cbv zeta. destruct reply.
    + exact Hp.
    + by rewrite handle_response_prompts.
  - by rewrite call_offline.
Qed.

(** C10: when the text entry returns the empty string, the round does
    nothing but count the opening of the text entry: the messages, the
    conversation list, the posted requests, the notices and the screen
    are what they were, so no turn is appended and no request is sent.
    The flag [should_prompt_next] stays set: unless ESC is among the keys
    read in that round, which ends the program, the loop goes on, and the
    next round opens the text entry again. *)
Theorem empty_prompt_changes_nothing dev reply ks s :
  let s1 := text_entry s in
  main_round dev (Round (Some []) reply ks) s true
  = (if existsb (fun k => str_eqb k #"ESC") ks then Exited s1
     else Running s1 true)
  /\ heap s1 = heap s /\ conversation s1 = conversation s
  /\ posted s1 = posted s /\ overlay s1 = overlay s /\ screen s1 = screen s
  /\ forall next, prompts (prompt dev next s1 true).1 = S (prompts s1).
Proof.
  intros s1. split.
  { unfold main_round. cbn [prompt typed truthy keys].
    apply poll_keys_prompting. }
  repeat split. intros next. unfold prompt.
  destruct (typed next) as [current_prompt|]; [|done].
  destruct (truthy current_prompt); [|done].
  cbn [fst]. by rewrite call_prompts.
Qed.

Example empty_prompt_twice :
  main_loop cardputer
    [Round (Some []) (Raises []) [#"ENT"]; Round (Some []) (Raises []) []]
    (said #"Hello") true
  = Running (text_entry (text_entry (said #"Hello"))) true.
Proof. reflexivity. Qed.

(** *** Painting the history *)

Lemma paint_lines_below_header lines y color :
  Forall below_header (paint_lines lines y color).1.
Proof.
  revert y. induction lines as [|line lines IH]; intros y; [constructor|].
  cbn [paint_lines]. destruct (Z.ltb_spec (y - 10) 14); [constructor|].
  specialize (IH (y - 10)).
  destruct (paint_lines lines (y - 10) color) as [ops y2].
  constructor; [exact H | exact IH].
Qed.

Lemma paint_entries_below_header dev entries y :
  Forall below_header (paint_entries dev entries y).
Proof.
  revert y. induction entries as [|e entries IH]; intros y; [constructor|].
  cbn [paint_entries].
  match goal with |- context [paint_lines ?l ?y ?c] =>
    pose proof (paint_lines_below_header l y c) as Hl;
    destruct (paint_lines l y c) as [ops y1] end.
  cbn [fst] in Hl. destruct (y1 <? 14); [done|].
  apply Forall_app. split; [done | apply IH].
Qed.

(** C9: every call that [draw_ui] makes to paint the history, for any
    conversation and any display, is a text call at a [y] of at least
    14; the calls of [draw_ui] are the three of the header, those of the
    history, and one [show]. *)
Theorem history_stays_below_header dev s :
  Forall below_header (draw_history dev s)
  /\ screen (draw_ui dev s)
     = screen s ++ draw_header dev ++ draw_history dev s ++ [Show].
Proof.
  split; [|done]. unfold draw_history. apply paint_entries_below_header.
Qed.

(** On the 135 pixel display eleven lines are painted, the topmost at
    [y = 21]; the older messages are not drawn. *)
Example history_is_cut :
  draw_history cardputer twenty
  = map (fun y => Text #"You: hello" 2 y 10)
        [121; 111; 101; 91; 81; 71; 61; 51; 41; 31; 21].
Proof. vm_compute. reflexivity. Qed.

(** *** The payload *)

Lemma handle_response_posted dev bot status body s :
  posted (handle_response dev bot status body s) = posted s.
Proof.
  unfold handle_response. destruct (negb (status =? 200)); [done|].
  destruct (read_reply body) as [e|[v|]]; [by destruct e| |done].
  by destruct v.
Qed.

Lemma call_posted dev reply s :
  wf s ->
  (network_check dev s).1 = true ->
  posted (call_gemini_api dev reply s)
  = posted s ++ [Payload (payload_contents s) 50].
Proof.
  intros Hwf Hon. rewrite call_online by done. cbv zeta.
  checked dev s as s2.
  assert (wf s2) as Hwf2 by (unfold wf; by rewrite Hh, Hc).
  assert (payload_contents s2 = payload_contents s) as Hpc.
  { unfold payload_contents, payload_refs. by rewrite Hh, Hc. }
  destruct reply as [detail|status body].
  - cbn [request_failed pop notify posted set_conversation].
    by rewrite sending_posted, Hp, Hpc.
  - by rewrite handle_response_posted, sending_posted, Hp, Hpc.
Qed.

Lemma payload_refs_length s :
  (length (payload_refs s) <= 2 * MAX_CONVERSATION_HISTORY)%nat.
Proof.
  unfold payload_refs. cbv zeta. rewrite start_index_nat, length_drop. lia.
Qed.


Lemma wf_six_pairs : wf six_pairs.
Proof. apply Forall_forall. intros r Hr. apply elem_of_seq in Hr. cbn. lia. Qed.


(** With twelve stored messages the payload is the persona and the last
    ten of them; the oldest pair is dropped. *)
Example payload_of_six_pairs :
  posted (call_gemini_api cardputer (Raises []) six_pairs)
  = [Payload [SYSTEM_PROMPT;
              Entry user #"q2"; Entry model #"a2"; Entry user #"q3";
              Entry model #"a3"; Entry user #"q4"; Entry model #"a4";
              Entry user #"q5"; Entry model #"a5"; Entry user #"q6";
              Entry model #"a6"] 50].
Proof. vm_compute. reflexivity. Qed.

(** *** A reply that is not of the expected shape *)

Lemma say_store dev t s :
  heap (say dev t s) = heap s ++ [Entry user t]
  /\ conversation (say dev t s) = conversation s ++ [length (heap s)]
  /\ posted (say dev t s) = posted s
  /\ overlay (say dev t s) = overlay s
  /\ polls (say dev t s) = polls s.
Proof. done. Qed.

Lemma wf_snoc (h : list entry) (c : list nat) (e : entry) :
  Forall (fun r => (r < length h)%nat) c ->
  Forall (fun r => (r < length (h ++ [e]))%nat) (c ++ [length h]).
Proof.
  intros Hc. rewrite length_app. cbn [length]. apply Forall_app. split.
  - eapply Forall_impl; [exact Hc|]. intros; cbn in *; lia.
  - repeat constructor. lia.
Qed.

Lemma say_wf dev t s : wf s -> wf (say dev t s).
Proof.
  intros Hwf. unfold wf.
  destruct (say_store dev t s) as (-> & -> & _). by apply wf_snoc.
Qed.

Lemma say_view dev t s : wf s -> view (say dev t s) = view s ++ [Entry user t].
Proof.
  intros Hwf. unfold view.
  destruct (say_store dev t s) as (-> & -> & _).
  rewrite map_app. cbn [map]. by rewrite deref_app_new, map_deref_app.
Qed.

(** C1, where the program departs from it: status 200 with a body that
    [json.loads] rejects, or that raises [KeyError] or [IndexError] in
    the check, or for which the check is false, is answered with one of
    the notices "JSON Parse Error" and "Bad API Response", which differ
    from the one for a bad status, and with nothing else: the placeholder
    is not popped, so the conversation has one element more than before
    the request, an empty message of the model. *)
Theorem parse_error_keeps_placeholder dev s body :
  wf s ->
  (network_check dev s).1 = true ->
  read_reply body = inr None
  \/ (exists e, read_reply body = inl e
                /\ (e = JSONDecodeError \/ e = KeyError \/ e = IndexError)) ->
  let s' := call_gemini_api dev (Response 200 body) s in
  conversation s' = conversation s ++ [length (heap s)]
  /\ length (conversation s') = S (length (conversation s))
  /\ view s' = view s ++ [Entry model []]
  /\ exists msg, overlay s' = overlay s ++ [Error msg]
       /\ (msg = #"Bad API Response" \/ msg = #"JSON Parse Error").
Proof.
  intros Hwf Hon Hbad s'. unfold s'. rewrite call_online by done. cbv zeta.
  pose proof (network_check_true_overlay dev s Hon) as Hov.
  checked dev s as s2.
  assert (wf s2) as Hwf2 by (unfold wf; by rewrite Hh, Hc).
  assert (view s2 = view s) as Hv by (unfold view; by rewrite Hh, Hc).
  assert (exists msg,
    handle_response dev (length (heap s2)) 200 body (sending s2)
    = notify (Error msg) (sending s2)
    /\ (msg = #"Bad API Response" \/ msg = #"JSON Parse Error"))
    as (msg & -> & Hmsg).
  { unfold handle_response. cbn [Z.eqb Pos.eqb negb].
    destruct Hbad as [-> | (e & -> & [-> | [-> | ->]])]; eexists; split;
      try reflexivity; auto. }
  pose proof (sending_view s2 Hwf2) as Hsv. unfold view in Hsv, Hv |- *.
  cbn [notify conversation heap overlay].
  rewrite Hsv, sending_conversation, sending_overlay, Hv, Hov, Hc, Hh.
  rewrite length_app. cbn [length].
  repeat split; try done; [lia|]. by exists msg.
Qed.

Lemma parse_error_keeps_placeholder_witness :
  let s := said #"Hello" in
  let s' := call_gemini_api cardputer empty_object_reply s in
  conversation s' = conversation s ++ [length (heap s)]
  /\ length (conversation s') = S (length (conversation s))
  /\ view s' = view s ++ [Entry model []]
  /\ exists msg, overlay s' = overlay s ++ [Error msg]
       /\ (msg = #"Bad API Response" \/ msg = #"JSON Parse Error").
Proof.
  apply (parse_error_keeps_placeholder cardputer (said #"Hello")
           (Decoded #"{}" (Some (JObj []))));
    [apply wf_said | reflexivity | left; reflexivity].
Defined.

(** The body [{}], which has no [candidates]: the notice is "Bad API
    Response" and the empty message of the model stays. *)
Example missing_candidates :
  let s' := call_gemini_api cardputer empty_object_reply (said #"Hello") in
  view s' = [Entry user #"Hello"; Entry model []]
  /\ overlay s' = [Error #"Bad API Response"].
Proof. split; reflexivity. Qed.

(** C2, where the program departs from it: after a request that ended
    with "Bad API Response" the conversation has one new element, an
    empty message of the model, which stays; while the next request is in
    flight the conversation holds two empty messages of the model, and
    the older one is not the last element. *)
Theorem parse_error_leaves_empty_turn :
  let s1 := state_of (main cardputer #"key"
                        [Round (Some #"Hello") empty_object_reply []]) in
  let s2 := (network_check cardputer
               (say cardputer #"Again" (text_entry s1))).2 in
  view s1 = [Entry user #"Hello"; Entry model []]
  /\ view (sending s2)
     = [Entry user #"Hello"; Entry model []; Entry user #"Again";
        Entry model []].
Proof. vm_compute. split; reflexivity. Qed.

(** The other ways a request ends leave no empty message: an exception
    of the transport pops the placeholder. *)
Lemma transport_error_rolls_back dev s detail :
  wf s ->
  (network_check dev s).1 = true ->
  let s' := call_gemini_api dev (Raises detail) s in
  conversation s' = conversation s /\ view s' = view s
  /\ overlay s' = overlay s ++ [RequestFail (RequestException detail)].
Proof.
  intros Hwf Hon s'. unfold s'. rewrite call_online by done. cbv zeta.
  pose proof (network_check_true_overlay dev s Hon) as Hov.
  checked dev s as s2.
  unfold view.
  cbn [request_failed pop notify conversation heap overlay set_conversation].
  rewrite sending_conversation, removelast_snoc, sending_heap,
    sending_overlay, Hov, Hc, Hh.
  split; [done|]. split; [|done]. apply map_deref_app. exact Hwf.
Qed.

(** *** A reply of the expected shape *)

Lemma field_Some key v x :
  field key v = Some x -> py_in key v = inr true /\ py_item v key = inr x.
Proof.
  destruct v; try done. cbn. intros ->. split; [|done].
  unfold ret. f_equal.
Qed.

Lemma first_item_Some v x :
  first_item v = Some x ->
  (exists n, py_len v = inr (S n)) /\ py_first v = inr x.
Proof.
  destruct v as [| | | |[|y items]|]; try done. cbn. intros [= ->].
  split; [by eexists|done].
Qed.

Lemma read_reply_schema txt data t :
  schema_text data = Some t ->
  read_reply (Decoded txt (Some data)) = inr (Some (JStr t)).
Proof.
  unfold schema_text. intros H.
  destruct (field #"candidates" data) as [c|] eqn:E1; [|done].
  cbn [mbind option_bind] in H.
  destruct (first_item c) as [c0|] eqn:E2; [|done].
  cbn [mbind option_bind] in H.
  destruct (field #"content" c0) as [ct|] eqn:E3; [|done].
  cbn [mbind option_bind] in H.
  destruct (field #"parts" ct) as [ps|] eqn:E4; [|done].
  cbn [mbind option_bind] in H.
  destruct (first_item ps) as [p0|] eqn:E5; [|done].
  cbn [mbind option_bind] in H.
  destruct (field #"text" p0) as [v|] eqn:E6; [|done].
  cbn in H. destruct v; try done. injection H as ->.
  apply field_Some in E1 as [I1 G1], E3 as [I3 G3], E4 as [I4 G4],
    E6 as [I6 G6].
  apply first_item_Some in E2 as [[n2 L2] F2], E5 as [[n5 L5] F5].
  unfold read_reply, loads, has_text, full_text_response, part0, content0,
    candidate0, and_then, bind, ret in *.
  by rewrite I1, G1, L2, F2, I3, G3, I4, G4, L5, F5, I6, G6.
Qed.

(** C7: on status 200 with a body in which
    [candidates[0].content.parts[0].text] is present at every level and
    is the string [t], the placeholder is filled with [t]: the
    conversation shows the messages it had and then the model's message
    [t], and the payload that was posted is the one put together from the
    conversation before the request.  In particular, when "Hello" is
    entered with an empty history and the link up, the payload contents
    are the persona and the user's "Hello", and after the reply "Hi
    there!" the conversation is the user's "Hello" followed by the
    model's "Hi there!". *)
Theorem success_fills_placeholder :
  (forall dev s txt data t,
     wf s ->
     (network_check dev s).1 = true ->
     schema_text data = Some t ->
     let s' := call_gemini_api dev (Response 200 (Decoded txt (Some data))) s in
     view s' = view s ++ [Entry model t]
     /\ posted s' = posted s ++ [Payload (payload_contents s) 50]
     /\ overlay s' = overlay s)
  /\ (forall dev api_key,
       truthy api_key = true ->
       (forall n, isconnected dev n = true) ->
       exists s',
         main dev api_key [Round (Some #"Hello") (ok_reply #"Hi there!") []]
         = Running s' true
         /\ posted s' = [Payload [SYSTEM_PROMPT; Entry user #"Hello"] 50]
         /\ view s' = [Entry user #"Hello"; Entry model #"Hi there!"]).
Proof.
  assert (forall dev s txt data t,
     wf s ->
     (network_check dev s).1 = true ->
     schema_text data = Some t ->
     let s' := call_gemini_api dev (Response 200 (Decoded txt (Some data))) s in
     view s' = view s ++ [Entry model t]
     /\ posted s' = posted s ++ [Payload (payload_contents s) 50]
     /\ overlay s' = overlay s) as General.
  { intros dev s txt data t Hwf Hon Hshape s'.
    split; [|split; [by apply call_posted|]].
    - unfold s'. rewrite call_online by done. cbv zeta.
      checked dev s as s2.
      assert (wf s2) as Hwf2 by (unfold wf; by rewrite Hh, Hc).
      unfold handle_response. cbn [Z.eqb Pos.eqb negb].
      rewrite (read_reply_schema _ _ _ Hshape).
      unfold view.
      cbn [draw_ui draw play set_text set_heap heap conversation].
      rewrite sending_heap, sending_conversation, map_app. cbn [map].
      f_equal.
      + rewrite map_deref_alter by (rewrite Hh, Hc; exact Hwf).
        rewrite map_deref_app by exact Hwf2. by rewrite Hh, Hc.
      + unfold deref. rewrite list_lookup_alter_eq, lookup_app_r by lia.
        by rewrite Nat.sub_diag.
    - unfold s'. rewrite call_online by done. cbv zeta.
      unfold handle_response. cbn [Z.eqb Pos.eqb negb].
      rewrite (read_reply_schema _ _ _ Hshape).
      cbn [draw_ui draw play set_text set_heap overlay].
      rewrite sending_overlay. by apply network_check_true_overlay. }
  split; [exact General|].
  intros dev api_key Hkey Hup.
  unfold main. rewrite Hkey. cbn [negb].
  destruct (connect_wifi dev _) as [b s1] eqn:Ec.
  assert (store s1 = store initial) as Hs1.
  { pose proof (connect_wifi_store dev
      (draw [Rect 0 0 1 1 2 false; Show] initial)) as E.
    rewrite Ec in E. exact E. }
  unfold store in Hs1. cbn [initial heap conversation posted] in Hs1.
  injection Hs1 as Hh Hc Hp _.
  cbn [main_loop]. unfold main_round, prompt. cbn [typed reply keys].
  change (truthy #"Hello") with true. cbn [poll_keys].
  cbv zeta.
  set (s0 := text_entry (draw_ui dev s1)).
  set (s2 := say dev #"Hello" s0).
  assert (wf s0) as Hwf1.
  { unfold wf. cbn [s0 text_entry draw_ui draw heap conversation].
    rewrite Hc. constructor. }
  assert (wf s2) as Hwf2 by by apply say_wf.
  assert (view s2 = [Entry user #"Hello"]) as Hv2.
  { unfold s2. rewrite say_view by done. unfold view.
    cbn [s0 text_entry draw_ui draw heap conversation]. by rewrite Hc. }
  assert ((network_check dev s2).1 = true) as Hon.
  { unfold network_check, poll. cbv beta iota zeta. by rewrite Hup. }
  destruct (General dev s2 [] (reply_body (JStr #"Hi there!")) #"Hi there!"
              Hwf2 Hon eq_refl) as (Hview & Hposted & _).
  eexists. split; [reflexivity|]. split.
  - unfold ok_reply. rewrite Hposted.
    pose proof (payload_contents_view s2) as E. cbv zeta in E.
    rewrite E, Hv2.
    unfold s2.
    destruct (say_store dev #"Hello" s0) as (_ & _ & -> & _).
    cbn [s0 text_entry draw_ui draw posted]. rewrite Hp. reflexivity.
  - unfold ok_reply. by rewrite Hview, Hv2.
Qed.

Lemma success_fills_placeholder_witness :
  let s' := call_gemini_api cardputer (ok_reply #"Hi there!")
              (said #"Hello") in
  view s' = view (said #"Hello") ++ [Entry model #"Hi there!"]
  /\ posted s'
     = posted (said #"Hello")
       ++ [Payload (payload_contents (said #"Hello")) 50]
  /\ overlay s' = overlay (said #"Hello").
Proof.
  apply (proj1 success_fills_placeholder cardputer (said #"Hello") []
           (reply_body (JStr #"Hi there!")) #"Hi there!");
    [apply wf_said | reflexivity | reflexivity].
Defined.

(** A reply whose [candidates] is empty, or whose text is missing, is
    not of the expected shape. *)
Example no_candidate :
  read_reply (Decoded [] (Some (JObj [(#"candidates", JArr [])])))
  = inr None.
Proof. reflexivity. Qed.

Example candidate_is_a_number :
  read_reply (Decoded [] (Some (JObj [(#"candidates", JArr [JNum 1])])))
  = inl TypeError.
Proof. reflexivity. Qed.

Example candidates_is_an_object :
  read_reply
    (Decoded [] (Some (JObj [(#"candidates", JObj [(#"a", JNull)])])))
  = inl KeyError.
Proof. reflexivity. Qed.

(** *** Allocated addresses are an invariant *)

Lemma wf_store s s' :
  length (heap s') = length (heap s) -> conversation s' = conversation s ->
  wf s -> wf s'.
Proof. unfold wf. by intros -> ->. Qed.

Lemma wf_pop s : wf s -> wf (pop s).
Proof.
  unfold wf. cbn [pop set_conversation heap conversation].
  rewrite !Forall_forall. intros H r Hr. apply H.
  apply list_elem_of_In. apply list_elem_of_In in Hr.
  revert Hr. generalize (conversation s). intros l.
  induction l as [|x [|y l] IH]; cbn; [done..|].
  intros [->|Hr]; [by left|right; by apply IH].
Qed.

Lemma wf_sending s : wf s -> wf (sending s).
Proof.
  intros Hwf. unfold wf. rewrite sending_heap, sending_conversation.
  by apply wf_snoc.
Qed.

Lemma handle_response_wf dev bot status body s :
  wf s -> wf (handle_response dev bot status body s).
Proof.
  intros Hwf. unfold handle_response.
  destruct (negb (status =? 200)).
  { apply wf_pop. by eapply wf_store; [..|exact Hwf]. }
  destruct (read_reply body) as [e|[v|]].
  - destruct e; cbn [parse_failed request_failed];
      try (apply wf_pop); by eapply wf_store; [..|exact Hwf].
  - destruct v; try (apply wf_pop; by eapply wf_store; [..|exact Hwf]).
    eapply wf_store; [..|exact Hwf]; [|done].
    cbn [draw_ui draw play set_text set_heap heap]. apply length_alter.
  - by eapply wf_store; [..|exact Hwf].
Qed.

Lemma call_gemini_api_wf dev reply s :
  wf s -> wf (call_gemini_api dev reply s).
Proof.
  intros Hwf.
  pose proof (network_check_store dev s) as Hstore.
  unfold store in Hstore. injection Hstore as Hh Hc _ _.
  assert (wf (network_check dev s).2) as Hwf2
    by (unfold wf; by rewrite Hh, Hc).
  destruct (network_check dev s).1 eqn:Hon.
  - rewrite call_online by done. cbv zeta. destruct reply.
    + apply wf_pop. eapply wf_store; [..|by apply wf_sending]; done.
    + by apply handle_response_wf, wf_sending.
  - rewrite call_offline by done. by eapply wf_store; [..|exact Hwf2].
Qed.

Lemma main_round_wf dev r s flag :
  wf s -> wf (state_of (main_round dev r s flag)).
Proof.
  intros Hwf. unfold main_round.
  assert (wf (prompt dev r s flag).1) as Hp.
  { unfold prompt. destruct flag; [|done]. destruct (typed r); [|done].
    destruct (truthy _); [|done]. by apply call_gemini_api_wf, say_wf. }
  destruct (prompt dev r s flag) as [s1 flag1]. cbn [fst] in Hp.
  generalize flag1. induction (keys r) as [|k ks IH]; intros f; [done|].
  cbn [poll_keys]. destruct (str_eqb k #"ESC"); [done|].
  destruct (_ && _); apply IH.
Qed.

Lemma main_loop_wf dev rounds s flag :
  wf s -> wf (state_of (main_loop dev rounds s flag)).
Proof.
  revert s flag. induction rounds as [|r rounds IH]; intros s flag Hwf;
    [done|].
  cbn [main_loop]. pose proof (main_round_wf dev r s flag Hwf) as H.
  destruct (main_round dev r s flag); [by apply IH|done].
Qed.

(** Every state that [main] reaches holds allocated addresses only. *)
Lemma main_wf dev api_key rounds : wf (state_of (main dev api_key rounds)).
Proof.
  unfold main. destruct (negb (truthy api_key)); [constructor|].
  destruct (connect_wifi dev _) as [b s1] eqn:Ec.
  apply main_loop_wf.
  pose proof (connect_wifi_store dev
    (draw [Rect 0 0 1 1 2 false; Show] initial)) as E.
  rewrite Ec in E. unfold store in E. injection E as Hh Hc _ _.
  unfold wf. cbn [draw_ui draw heap conversation]. rewrite Hc. constructor.
Qed.

(** ** Text layout *)

(** *** Examples *)

(** Words are packed while the line fits. *)
Example wrap_two_words :
  wrap_text fixed8 #"hello big world" 80 = [#"hello big"; #"world"].
Proof. reflexivity. Qed.

(** A word wider than the line is cut into parts that fit. *)
Example wrap_long_word :
  wrap_text fixed8 #"abcdefg" 24 = [#"abc"; #"def"; #"g"].
Proof. reflexivity. Qed.

(** [current_line] is reset after a long word without being appended:
    the words on it are not in the result. *)
Example wrap_drops_before_long_word :
  wrap_text fixed8 #"hi abcdefg" 24 = [#"abc"; #"def"; #"g"].
Proof. reflexivity. Qed.

(** *** Splitting and stripping *)

Lemma split_on_cons p s : exists w ws, split_on p s = w :: ws.
Proof.
  destruct s as [|c s]; cbn; [by eexists _, _|].
  destruct (p c); [by eexists _, _|].
  destruct (split_on p s); by eexists _, _.
Qed.

Lemma split_on_app p a c b :
  p c = true -> split_on p (a ++ c :: b) = split_on p a ++ split_on p b.
Proof.
  intros Hc. induction a as [|x a IH]; cbn.
  - by rewrite Hc.
  - rewrite IH. destruct (p x); [done|].
    by destruct (split_on_cons p a) as (w & ws & ->).
Qed.

Lemma isspace_space : isspace space = true.
Proof. done. Qed.

Lemma is_space_eq c : is_space c = true -> c = space.
Proof. apply Ascii.eqb_eq. Qed.

Lemma tokens_nil : tokens [] = [].
Proof. done. Qed.

Lemma tokens_app a c b :
  isspace c = true -> tokens (a ++ c :: b) = tokens a ++ tokens b.
Proof.
  intros Hc. unfold tokens. by rewrite split_on_app, List.filter_app.
Qed.

Lemma tokens_cons c s : isspace c = true -> tokens (c :: s) = tokens s.
Proof. intros Hc. exact (tokens_app [] c s Hc). Qed.

Lemma tokens_snoc s c : isspace c = true -> tokens (s ++ [c]) = tokens s.
Proof. intros Hc. by rewrite (tokens_app s c [] Hc), tokens_nil, app_nil_r. Qed.

Lemma tokens_lstrip s : tokens (lstrip s) = tokens s.
Proof.
  induction s as [|c s IH]; [done|]. cbn [lstrip].
  destruct (isspace c) eqn:Hc; [|done]. by rewrite IH, tokens_cons.
Qed.

Lemma tokens_rstrip s : tokens (rev (lstrip (rev s))) = tokens s.
Proof.
  induction s as [|c s IH] using rev_ind; [done|].
  rewrite rev_unit. cbn [lstrip].
  destruct (isspace c) eqn:Hc.
  - by rewrite IH, tokens_snoc.
  - by rewrite <- rev_unit, rev_involutive.
Qed.

Lemma tokens_strip s : tokens (strip s) = tokens s.
Proof. unfold strip. by rewrite tokens_rstrip, tokens_lstrip. Qed.

Lemma tokens_join lines :
  tokens (join_space lines) = concat (map tokens lines).
Proof.
  induction lines as [|l [|l2 ls] IH]; [done| |].
  - cbn. by rewrite app_nil_r.
  - change (join_space (l :: l2 :: ls))
      with (l ++ space :: join_space (l2 :: ls)).
    rewrite tokens_app by done. by rewrite IH.
Qed.

Lemma join_split_space s : join_space (split_space s) = s.
Proof.
  unfold split_space. induction s as [|c s IH]; [done|]. cbn [split_on].
  destruct (split_on_cons is_space s) as (w & ws & E). rewrite E in *.
  destruct (is_space c) eqn:Hc.
  - apply is_space_eq in Hc as ->.
    change (join_space ([] :: w :: ws)) with (space :: join_space (w :: ws)).
    by rewrite IH.
  - rewrite <- IH. by destruct ws.
Qed.

(** *** Words that fit: nothing is lost *)

Section Tokens.

Variable measure : str -> Z.
Variable width : Z.

Lemma held_flush lines current_line :
  concat (map tokens (if truthy current_line
                      then lines ++ [strip current_line] else lines))
  = held (lines, current_line).
Proof.
  unfold held. cbn [fst snd]. destruct current_line as [|c cur]; cbn [truthy].
  - by rewrite tokens_nil, app_nil_r.
  - rewrite map_app, concat_app. cbn [map concat].
    by rewrite tokens_strip, app_nil_r.
Qed.

Lemma wrap_word_held st word :
  measure word <= width ->
  held (wrap_word measure width st word) = held st ++ tokens word.
Proof.
  intros Hfit. destruct st as [lines current_line]. unfold wrap_word.
  destruct (Z.ltb_spec width (measure word)) as [|_]; [lia|].
  destruct (_ <=? width).
  - unfold held. cbn [fst snd]. rewrite <- app_assoc. f_equal.
    destruct current_line as [|c cur]; cbn [truthy]; [done|].
    exact (tokens_app (c :: cur) space word isspace_space).
  - unfold held at 1. cbn [fst snd]. by rewrite held_flush.
Qed.

Lemma wrap_words_held words st :
  Forall (fun word => measure word <= width) words ->
  held (wrap_words measure width words st)
  = held st ++ concat (map tokens words).
Proof.
  intros Hfit. revert st.
  induction Hfit as [|word words Hw _ IH]; intros st.
  - cbn. by rewrite app_nil_r.
  - cbn [wrap_words fold_left map concat].
    change (fold_left (wrap_word measure width) words ?x)
      with (wrap_words measure width words x).
    by rewrite IH, wrap_word_held, <- app_assoc.
Qed.

End Tokens.

(** *** Order *)

Lemma letters_app a b : letters (a ++ b) = letters a ++ letters b.
Proof. apply filter_app. Qed.

Lemma is_space_neq c : is_space c = false -> c <> space.
Proof. apply Ascii.eqb_neq. Qed.

Lemma split_on_Forall p (Q : ascii -> Prop) s :
  Forall Q s ->
  Forall (Forall (fun c => Q c /\ p c = false)) (split_on p s).
Proof.
  induction 1 as [|c s Hc _ IH]; cbn [split_on]; [by repeat constructor|].
  destruct (p c) eqn:Hp; [by constructor|].
  destruct (split_on_cons p s) as (w & ws & E). rewrite E in *.
  inversion_clear IH. constructor; [|done]. by constructor.
Qed.

Lemma split_space_no_space s :
  Forall (Forall (fun c => c <> space)) (split_space s).
Proof.
  eapply Forall_impl;
    [apply (split_on_Forall is_space (fun _ => True)); by apply Forall_true|].
  intros w Hw. eapply Forall_impl; [exact Hw|].
  intros c [_ Hc]. by apply is_space_neq.
Qed.

Lemma letters_id w : Forall (fun c => c <> space) w -> letters w = w.
Proof.
  induction 1 as [|c w Hc _ IH]; [done|].
  unfold letters in *. by rewrite filter_cons_True, IH.
Qed.

Lemma concat_split_space s : concat (split_space s) = letters s.
Proof.
  rewrite <- (join_split_space s) at 2.
  pose proof (split_space_no_space s) as Hw.
  induction Hw as [|w [|w2 ws] Hw Hws IH]; [done| |].
  - cbn. by rewrite app_nil_r, letters_id.
  - change (join_space (w :: w2 :: ws))
      with (w ++ [space] ++ join_space (w2 :: ws)).
    rewrite !letters_app, <- IH, letters_id by done. done.
Qed.

Lemma lstrip_suffix s : exists pre, s = pre ++ lstrip s.
Proof.
  induction s as [|c s [pre IH]]; [by exists []|]. cbn [lstrip].
  destruct (isspace c); [|by exists []].
  exists (c :: pre). cbn. by rewrite <- IH.
Qed.

Lemma strip_segment s : exists pre post, s = pre ++ strip s ++ post.
Proof.
  unfold strip.
  destruct (lstrip_suffix s) as [pre E].
  destruct (lstrip_suffix (rev (lstrip s))) as [post' E'].
  exists pre, (rev post').
  rewrite <- rev_app_distr, <- E', rev_involutive. exact E.
Qed.

Lemma letters_strip s : letters (strip s) `sublist_of` letters s.
Proof.
  destruct (strip_segment s) as (pre & post & E).
  rewrite E at 2. rewrite !letters_app.
  by apply sublist_inserts_l, sublist_inserts_r.
Qed.

Section Order.

Variable measure : str -> Z.
Variable width : Z.

(** The characters of a long word end up in the parts, in order. *)
Lemma split_long_concat word lines temp_word_part :
  let '(lines1, temp1) :=
    split_long measure width word lines temp_word_part in
  concat lines1 ++ temp1 = concat lines ++ temp_word_part ++ word.
Proof.
  revert lines temp_word_part.
  induction word as [|char word IH]; intros lines temp; cbn [split_long].
  - by rewrite app_nil_r.
  - destruct (_ <=? width).
    + specialize (IH lines (temp ++ [char])).
      destruct (split_long _ _ _ _ _) as [lines1 temp1].
      by rewrite IH, <- app_assoc.
    + specialize (IH (if truthy temp then lines ++ [temp] else lines) [char]).
      destruct (split_long _ _ _ _ _) as [lines1 temp1].
      rewrite IH. destruct temp as [|c temp]; cbn [truthy]; [done|].
      rewrite concat_app. cbn [concat]. by rewrite app_nil_r, <- !app_assoc.
Qed.

Lemma painted_flush lines current_line :
  letters (concat (if truthy current_line
                   then lines ++ [strip current_line] else lines))
  `sublist_of` painted (lines, current_line).
Proof.
  unfold painted. cbn [fst snd].
  destruct current_line as [|c cur]; cbn [truthy].
  - by apply sublist_inserts_r.
  - rewrite concat_app, letters_app. cbn [concat]. rewrite app_nil_r.
    apply sublist_app; [done|apply letters_strip].
Qed.

Lemma wrap_word_order st word seen :
  Forall (fun c => c <> space) word ->
  painted st `sublist_of` seen ->
  painted (wrap_word measure width st word) `sublist_of` seen ++ word.
Proof.
  intros Hword Hst. destruct st as [lines current_line]. unfold wrap_word.
  destruct (width <? measure word).
  - pose proof (split_long_concat word lines []) as E.
    destruct (split_long _ _ _ _ _) as [lines1 temp1].
    unfold painted in *. cbn [fst snd] in *.
    assert (concat (if truthy temp1 then lines1 ++ [temp1] else lines1)
            = concat lines ++ word) as ->.
    { change ([] ++ word) with word in E. rewrite <- E.
      destruct temp1; cbn [truthy]; [by rewrite app_nil_r|].
      rewrite concat_app. cbn [concat]. by rewrite app_nil_r. }
    rewrite letters_app, (letters_id word) by done.
    change (letters []) with (@nil ascii). rewrite app_nil_r.
    apply sublist_app; [|done].
    etrans; [|exact Hst]. by apply sublist_inserts_r.
  - destruct (_ <=? width).
    + unfold painted in *. cbn [fst snd] in *.
      rewrite !letters_app, (letters_id word) by done.
      assert (letters (if truthy current_line then [space] else []) = [])
        as -> by by destruct current_line.
      cbn [app]. rewrite app_assoc. by apply sublist_app.
    + unfold painted at 1. cbn [fst snd].
      rewrite (letters_id word) by done.
      apply sublist_app; [|done].
      etrans; [apply painted_flush|exact Hst].
Qed.

Lemma wrap_words_order words st seen :
  Forall (Forall (fun c => c <> space)) words ->
  painted st `sublist_of` seen ->
  painted (wrap_words measure width words st)
  `sublist_of` seen ++ concat words.
Proof.
  intros Hwords. revert st seen.
  induction Hwords as [|word words Hw _ IH]; intros st seen Hst.
  - cbn. by rewrite app_nil_r.
  - cbn [wrap_words fold_left concat].
    change (fold_left (wrap_word measure width) words ?x)
      with (wrap_words measure width words x).
    rewrite app_assoc. apply IH. by apply wrap_word_order.
Qed.

(** The lines keep the order of the text: their characters other than
    spaces, read line after line, are a subsequence of those of the
    text. *)
Lemma wrap_text_order text :
  letters (concat (wrap_text measure text width)) `sublist_of` letters text.
Proof.
  unfold wrap_text.
  pose proof (wrap_words_order (split_space text) ([], []) []
                (split_space_no_space text)) as H.
  destruct (wrap_words measure width (split_space text) ([], []))
    as [lines current_line].
  etrans; [apply painted_flush|].
  rewrite <- concat_split_space. apply H. done.
Qed.

End Order.

(** *** Nothing is lost, repeated or moved *)


(** *** Width of the lines *)

Lemma starts_clean_app s x : starts_clean s -> starts_clean (s ++ x).
Proof. by destruct s. Qed.

Lemma lstrip_clean s : starts_clean s -> lstrip s = s.
Proof. destruct s as [|c s]; [done|]. cbn. by intros ->. Qed.

Lemma lstrip_spaces l x :
  Forall (fun c => isspace c = true) l -> lstrip (l ++ x) = lstrip x.
Proof. induction 1 as [|c l Hc _ IH]; [done|]. cbn. by rewrite Hc. Qed.

Lemma strip_clean base k :
  clean base -> strip (base ++ replicate k space) = base.
Proof.
  intros [Hhead Hlast]. unfold strip.
  rewrite (lstrip_clean (base ++ _)) by by apply starts_clean_app.
  rewrite rev_app_distr, lstrip_spaces, lstrip_clean, rev_involutive; try done.
  by apply Forall_rev, Forall_replicate.
Qed.

Lemma clean_not_nil s : clean s -> s <> [].
Proof. by intros [H _] ->. Qed.

Lemma clean_word w :
  w <> [] -> Forall (fun c => isspace c = false) w -> clean w.
Proof.
  intros Hne Hw. split.
  - destruct w; [done|]. by inversion Hw.
  - apply Forall_rev in Hw. destruct (rev w) eqn:E; [|by inversion Hw].
    apply (f_equal (@rev ascii)) in E. rewrite rev_involutive in E. done.
Qed.

Lemma clean_join base mid w : clean base -> clean w -> clean (base ++ mid ++ w).
Proof.
  intros [Hb _] [_ Hw]. split; [by apply starts_clean_app|].
  rewrite !rev_app_distr, <- app_assoc. by apply starts_clean_app.
Qed.

Section Fits.

Variable measure : str -> Z.
Variable width : Z.

Lemma part_line part : (part_ok measure width) part -> part <> [] -> (line_ok measure width) part.
Proof.
  intros [->|[Hfit|[c ->]]] Hne; [done|by split; [|left]|].
  split; [done|]. destruct (Z.le_gt_cases (measure [c]) width); [by left|].
  right. exists c. split; [done|lia].
Qed.

Lemma flush_part lines part :
  Forall (line_ok measure width) lines -> (part_ok measure width) part ->
  Forall (line_ok measure width) (if truthy part then lines ++ [part] else lines).
Proof.
  intros Hl Hp. destruct part as [|c part]; cbn [truthy]; [done|].
  apply Forall_app. split; [done|].
  apply Forall_cons_2; [by apply part_line|constructor].
Qed.

Lemma split_long_ok word lines temp_word_part :
  Forall (line_ok measure width) lines -> (part_ok measure width) temp_word_part ->
  let '(lines1, temp1) :=
    split_long measure width word lines temp_word_part in
  Forall (line_ok measure width) lines1 /\ (part_ok measure width) temp1.
Proof.
  revert lines temp_word_part.
  induction word as [|char word IH]; intros lines temp Hl Ht;
    cbn [split_long]; [done|].
  destruct (Z.leb_spec (measure (temp ++ [char])) width).
  - apply IH; [done|]. right. by left.
  - apply IH; [by apply flush_part|]. right. right. by exists char.
Qed.

Lemma current_line_strip current_line :
  (current_ok measure width) current_line -> current_line <> [] ->
  (line_ok measure width) (strip current_line).
Proof.
  intros [->|(base & k & -> & Hc & Hfit)] Hne; [done|].
  rewrite strip_clean by done. split; [by apply clean_not_nil|by left].
Qed.

Lemma flush_current lines current_line :
  Forall (line_ok measure width) lines -> (current_ok measure width) current_line ->
  Forall (line_ok measure width) (if truthy current_line
                  then lines ++ [strip current_line] else lines).
Proof.
  intros Hl Hc. destruct current_line as [|c cur] eqn:E; cbn [truthy];
    [done|].
  apply Forall_app. split; [done|].
  apply Forall_cons_2; [by apply current_line_strip|constructor].
Qed.

Lemma current_ok_word word :
  Forall (fun c => isspace c = false) word -> measure word <= width ->
  (current_ok measure width) word.
Proof.
  intros Hw Hfit. destruct word as [|c w] eqn:E; [by left|]. right.
  exists (c :: w), 0%nat. rewrite app_nil_r.
  split; [done|]. split; [by apply clean_word|done].
Qed.

Lemma wrap_word_ok lines current_line word :
  Forall (fun c => isspace c = false) word ->
  Forall (line_ok measure width) lines -> (current_ok measure width) current_line ->
  let '(lines1, current1) :=
    wrap_word measure width (lines, current_line) word in
  Forall (line_ok measure width) lines1 /\ (current_ok measure width) current1.
Proof.
  intros Hw Hl Hc. unfold wrap_word.
  destruct (Z.ltb_spec width (measure word)) as [Hlong|Hshort].
  - pose proof (split_long_ok word lines [] Hl (or_introl eq_refl)) as H.
    destruct (split_long _ _ _ _ _) as [lines1 temp1].
    destruct H as [H1 H2]. split; [by apply flush_part|by left].
  - destruct (Z.leb_spec (measure (current_line ++
        (if truthy current_line then [space] else []) ++ word)) width)
      as [Hfit|_].
    + split; [done|].
      destruct Hc as [->|(base & k & -> & Hb & Hbfit)].
      { cbn [truthy app]. by apply current_ok_word. }
      assert (truthy (base ++ replicate k space) = true) as Ht.
      { destruct base; [by destruct Hb|done]. }
      rewrite Ht in *. destruct word as [|c w] eqn:E.
      * right. exists base, (S k). rewrite app_nil_r.
        split; [|done]. by rewrite replicate_S_end, app_assoc.
      * right. eexists _, 0%nat. rewrite app_nil_r. split; [done|].
        split; [|done]. rewrite <- app_assoc.
        rewrite (app_assoc (replicate k space) [space] (c :: w)).
        apply clean_join; [done|]. by apply clean_word.
    + split; [by apply flush_current|by apply current_ok_word].
Qed.

Lemma wrap_words_ok words lines current_line :
  Forall (Forall (fun c => isspace c = false)) words ->
  Forall (line_ok measure width) lines -> (current_ok measure width) current_line ->
  let '(lines1, current1) :=
    wrap_words measure width words (lines, current_line) in
  Forall (line_ok measure width) lines1 /\ (current_ok measure width) current1.
Proof.
  intros Hwords. revert lines current_line.
  induction Hwords as [|word words Hw _ IH]; intros lines cur Hl Hc; [done|].
  cbn [wrap_words fold_left].
  change (fold_left (wrap_word measure width) words ?x)
    with (wrap_words measure width words x).
  pose proof (wrap_word_ok lines cur word Hw Hl Hc) as H.
  destruct (wrap_word measure width (lines, cur) word) as [lines1 cur1].
  destruct H. by apply IH.
Qed.

End Fits.

Lemma plain_spaces_words text :
  plain_spaces text ->
  Forall (Forall (fun c => isspace c = false)) (split_space text).
Proof.
  intros Hp. eapply Forall_impl; [apply split_on_Forall, Hp|].
  intros w Hw. eapply Forall_impl; [exact Hw|].
  intros c [Hc Hn]. cbv beta in *. destruct (isspace c); [|done].
  apply is_space_neq in Hn. by destruct Hn, Hc.
Qed.

Lemma wrap_text_nil measure width : wrap_text measure [] width = [].
Proof.
  unfold wrap_text, wrap_words, split_space. cbn [split_on fold_left].
  unfold wrap_word. cbn [split_long truthy app].
  destruct (width <? measure []); [done|].
  by destruct (measure [] <=? width).
Qed.

(** With plain spaces as the only whitespace, stripping a line removes
    only what the loop added after the last word that was measured. *)
Lemma wrap_text_plain_ok measure text width :
  plain_spaces text ->
  Forall (line_ok measure width) (wrap_text measure text width).
Proof.
  intros Hp. unfold wrap_text.
  pose proof (wrap_words_ok measure width (split_space text) [] []
                (plain_spaces_words text Hp) (Forall_nil_2 _)
                (or_introl eq_refl)) as H.
  destruct (wrap_words measure width (split_space text) ([], []))
    as [lines current_line].
  destruct H. by apply flush_current.
Qed.

(** A character wider than the limit is a line of its own. *)
Example wrap_wide_character :
  wrap_text fixed8 #"ab" 4 = [#"a"; #"b"].
Proof. reflexivity. Qed.

(** * Further properties *)

(** ** How a request ends *)

Section Outcomes.

Variable dev : device.

Lemma view_popped s2 s' :
  wf s2 -> heap s' = heap (sending s2) ->
  conversation s' = conversation (sending s2) ->
  conversation (pop s') = conversation s2 /\ view (pop s') = view s2.
Proof.
  intros Hwf Hh Hc. unfold view.
  cbn [pop set_conversation conversation heap].
  rewrite Hh, Hc, sending_conversation, removelast_snoc, sending_heap.
  split; [done|]. by apply map_deref_app.
Qed.

Lemma view_kept s2 s' :
  wf s2 -> heap s' = heap (sending s2) ->
  conversation s' = conversation (sending s2) ->
  view s' = view s2 ++ [Entry model []].
Proof.
  intros Hwf Hh Hc. rewrite <- (sending_view s2 Hwf). unfold view.
  by rewrite Hh, Hc.
Qed.

Lemma view_filled s2 t :
  wf s2 ->
  view (draw_ui dev (play (set_text (length (heap s2)) t (sending s2))))
  = view s2 ++ [Entry model t].
Proof.
  intros Hwf. unfold view.
  cbn [draw_ui draw play set_text set_heap heap conversation].
  rewrite sending_heap, sending_conversation, map_app. cbn [map]. f_equal.
  - rewrite map_deref_alter by exact Hwf. by apply map_deref_app.
  - unfold deref. rewrite list_lookup_alter_eq, lookup_app_r by lia.
    by rewrite Nat.sub_diag.
Qed.

(** The messages after a request that went out: those before it, and
    what the way it ended adds. *)
Lemma call_view reply s :
  wf s ->
  (network_check dev s).1 = true ->
  view (call_gemini_api dev reply s) = view s ++ reply_turn reply.
Proof.
  intros Hwf Hon. rewrite call_online by done. cbv zeta.
  checked dev s as s2.
  assert (wf s2) as Hwf2 by (unfold wf; by rewrite Hh, Hc).
  assert (view s2 = view s) as <- by (unfold view; by rewrite Hh, Hc).
  destruct reply as [detail|status body]; cbn [reply_turn].
  { rewrite app_nil_r. by apply view_popped. }
  unfold handle_response.
  destruct (status =? 200); cbn [negb].
  2: { rewrite app_nil_r. by apply view_popped. }
  destruct (read_reply body) as [e|[v|]].
  - destruct e; cbn [parse_failed request_failed];
      first [ rewrite app_nil_r; by apply view_popped
            | by apply view_kept ].
  - destruct v; first [ by apply view_filled
                       | rewrite app_nil_r; by apply view_popped ].
  - by apply view_kept.
Qed.

End Outcomes.

Section Beeps.

Variable dev : device.

Lemma wait_link_beeps fuel retries s :
  beeps (wait_link dev fuel retries s) = beeps s.
Proof.
  revert retries s. induction fuel as [|fuel IH]; intros retries s; cbn.
  - by destruct (isconnected dev (polls s)).
  - destruct (isconnected dev (polls s)); [done|]. by rewrite IH.
Qed.

Lemma connect_wifi_beeps s : beeps (connect_wifi dev s).2 = beeps s.
Proof.
  unfold connect_wifi.
  destruct (negb _ || negb _); [done|].
  unfold poll at 1. cbv beta iota zeta.
  destruct (isconnected dev (polls s)); [done|].
  match goal with |- context [wait_link dev ?f ?r ?t] =>
    pose proof (wait_link_beeps f r t) as Hw;
    change (beeps t) with (beeps s) in Hw;
    generalize dependent (wait_link dev f r t) end.
  intros s3 Hw. unfold poll. cbv beta iota zeta.
  by destruct (isconnected dev _).
Qed.

Lemma network_check_beeps s : beeps (network_check dev s).2 = beeps s.
Proof.
  unfold network_check, poll. cbv beta iota zeta.
  destruct (isconnected dev (polls s)); [done|].
  by rewrite connect_wifi_beeps.
Qed.

End Beeps.

(** X1: when [requests.post] raises, with the link up, the outer handler
    removes the placeholder: the conversation and its messages are those
    before the request, the only notice is "Request Fail: " with the
    exception, the payload was handed to the transport once, and no beep
    is played. *)
Theorem transport_exception_is_rolled_back dev s detail :
  wf s ->
  (network_check dev s).1 = true ->
  let s' := call_gemini_api dev (Raises detail) s in
  conversation s' = conversation s
  /\ view s' = view s
  /\ overlay s' = overlay s ++ [RequestFail (RequestException detail)]
  /\ posted s' = posted s ++ [Payload (payload_contents s) 50]
  /\ beeps s' = beeps s.
Proof.
  intros Hwf Hon s'.
  assert (view s' = view s) as Hview.
  { unfold s'. rewrite call_view by done. apply app_nil_r. }
  assert (posted s' = posted s ++ [Payload (payload_contents s) 50])
    as Hposted by by apply call_posted.
  assert (conversation s' = conversation s
          /\ overlay s' = overlay s ++ [RequestFail (RequestException detail)]
          /\ beeps s' = beeps s) as (Hconv & Hover & Hbeeps).
  { unfold s'. rewrite call_online by done. cbv zeta.
    pose proof (network_check_true_overlay dev s Hon) as Hov.
    pose proof (network_check_beeps dev s) as Hb.
    checked dev s as s2.
    cbn [request_failed pop notify conversation overlay set_conversation
         beeps].
    rewrite sending_conversation, removelast_snoc, sending_overlay, Hov, Hc.
    done. }
  done.
Qed.

Lemma transport_exception_is_rolled_back_witness :
  let s := said #"Hello" in
  let s' := call_gemini_api cardputer (Raises #"timeout") s in
  conversation s' = conversation s
  /\ view s' = view s
  /\ overlay s' = overlay s ++ [RequestFail (RequestException #"timeout")]
  /\ posted s' = posted s ++ [Payload (payload_contents s) 50]
  /\ beeps s' = beeps s.
Proof.
  apply (transport_exception_is_rolled_back cardputer (said #"Hello")
           #"timeout"); [apply wf_said | reflexivity].
Defined.

Lemma read_reply_scalar txt data :
  scalar data = true -> read_reply (Decoded txt (Some data)) = inl TypeError.
Proof. by destruct data. Qed.

(** X2: a reply with status 200 whose body raises [TypeError] in the
    check, or does not decode as UTF-8, is not caught by the inner
    handler: the outer one removes the placeholder, so the conversation
    is the one before the request, and shows "Request Fail: " with the
    exception.  Bodies that are the JSON values [null], a boolean or a
    number are of this kind. *)
Theorem type_error_reply_is_rolled_back :
  (forall dev s body e,
     wf s ->
     (network_check dev s).1 = true ->
     read_reply body = inl e ->
     e = TypeError \/ e = UnicodeDecodeError ->
     let s' := call_gemini_api dev (Response 200 body) s in
     conversation s' = conversation s
     /\ view s' = view s
     /\ overlay s' = overlay s ++ [RequestFail e])
  /\ (forall txt data,
       scalar data = true ->
       read_reply (Decoded txt (Some data)) = inl TypeError)
  /\ read_reply Undecodable = inl UnicodeDecodeError.
Proof.
  split; [|split; [apply read_reply_scalar|done]].
  intros dev s body e Hwf Hon Hread He s'.
  assert (view s' = view s) as Hview.
  { unfold s'. rewrite call_view by done. cbn [reply_turn Z.eqb Pos.eqb].
    rewrite Hread. destruct He as [-> | ->]; apply app_nil_r. }
  assert (conversation s' = conversation s
          /\ overlay s' = overlay s ++ [RequestFail e]) as [Hconv Hover].
  { unfold s'. rewrite call_online by done. cbv zeta.
    pose proof (network_check_true_overlay dev s Hon) as Hov.
    checked dev s as s2.
    unfold handle_response. cbn [Z.eqb Pos.eqb negb]. rewrite Hread.
    assert (parse_failed e (sending s2) = request_failed e (sending s2))
      as -> by by destruct He as [-> | ->].
    cbn [request_failed pop notify conversation overlay set_conversation].
    by rewrite sending_conversation, removelast_snoc, sending_overlay, Hov,
      Hc. }
  done.
Qed.

Lemma type_error_reply_is_rolled_back_witness :
  let s := said #"Hello" in
  let s' := call_gemini_api cardputer
              (Response 200 (Decoded #"5" (Some (JNum 5)))) s in
  conversation s' = conversation s
  /\ view s' = view s
  /\ overlay s' = overlay s ++ [RequestFail TypeError].
Proof.
  apply (proj1 type_error_reply_is_rolled_back cardputer (said #"Hello")
           (Decoded #"5" (Some (JNum 5))) TypeError);
    [apply wf_said | reflexivity | reflexivity | by left].
Defined.

(** ** The check of the reply *)

Lemma py_item_field v key x : py_item v key = inr x -> field key v = Some x.
Proof.
  destruct v; try done. cbn. by destruct (lookup_key key fields); intros [= ->].
Qed.

Lemma py_first_item v x :
  py_first v = inr x -> first_item v = Some x \/ exists c, x = JStr [c].
Proof.
  destruct v as [| | |[|c s]|[|y items]|]; try done; cbn; intros [= <-].
  - right. by exists c.
  - by left.
Qed.

Lemma full_text_response_schema data v :
  full_text_response data = inr v -> schema_value data = Some v.
Proof.
  unfold full_text_response, part0, content0, candidate0, schema_value, bind.
  destruct (py_item data #"candidates") as [|c] eqn:E1; [done|].
  destruct (py_first c) as [|c0] eqn:E2; [done|].
  destruct (py_item c0 #"content") as [|ct] eqn:E3; [done|].
  destruct (py_item ct #"parts") as [|ps] eqn:E4; [done|].
  destruct (py_first ps) as [|p0] eqn:E5; [done|].
  intros E6.
  apply py_item_field in E1, E3, E4, E6.
  apply py_first_item in E2 as [E2|[ch ->]]; [|done].
  apply py_first_item in E5 as [E5|[ch ->]]; [|done].
  rewrite E1. cbn [mbind option_bind]. rewrite E2. cbn [mbind option_bind].
  rewrite E3. cbn [mbind option_bind]. rewrite E4. cbn [mbind option_bind].
  rewrite E5. cbn [mbind option_bind]. exact E6.
Qed.

Lemma schema_value_read txt data v :
  schema_value data = Some v ->
  read_reply (Decoded txt (Some data)) = inr (Some v).
Proof.
  unfold schema_value. intros H.
  destruct (field #"candidates" data) as [c|] eqn:E1; [|done].
  cbn [mbind option_bind] in H.
  destruct (first_item c) as [c0|] eqn:E2; [|done].
  cbn [mbind option_bind] in H.
  destruct (field #"content" c0) as [ct|] eqn:E3; [|done].
  cbn [mbind option_bind] in H.
  destruct (field #"parts" ct) as [ps|] eqn:E4; [|done].
  cbn [mbind option_bind] in H.
  destruct (first_item ps) as [p0|] eqn:E5; [|done].
  cbn [mbind option_bind] in H.
  apply field_Some in E1 as [I1 G1], E3 as [I3 G3], E4 as [I4 G4],
    H as [I6 G6].
  apply first_item_Some in E2 as [[n2 L2] F2], E5 as [[n5 L5] F5].
  unfold read_reply, loads, has_text, full_text_response, part0, content0,
    candidate0, and_then, bind, ret in *.
  by rewrite I1, G1, L2, F2, I3, G3, I4, G4, L5, F5, I6, G6.
Qed.

(** X3: the success branch of [call_gemini_api] is entered, with the
    value [v] as the reply text, exactly when the decoded body is an
    object whose [candidates] is a non-empty array, whose first element
    is an object with an object [content], whose [parts] is a non-empty
    array with an object as first element, which has the member [text]
    with value [v].  Strings and arrays, for which [in] and [len] also
    give an answer, never get through. *)
Theorem success_branch_iff_schema txt data v :
  read_reply (Decoded txt (Some data)) = inr (Some v)
  <-> schema_value data = Some v.
Proof.
  split; [|apply schema_value_read].
  intros H. apply full_text_response_schema.
  unfold read_reply, loads, bind, ret in H.
  destruct (has_text data) as [|[|]]; [done| |done].
  by destruct (full_text_response data); simplify_eq.
Qed.

(** A string in place of the array of candidates passes [in] and [len]
    but ends in the [else] branch; an array in place of the object
    raises. *)
Example candidates_is_a_string :
  read_reply (Decoded [] (Some (JObj [(#"candidates", JStr #"content")])))
  = inr None.
Proof. reflexivity. Qed.

Example reply_is_an_array :
  read_reply (Decoded [] (Some (JArr [JStr #"candidates"])))
  = inl TypeError.
Proof. reflexivity. Qed.

(** ** A reply text that is not a string, and the beep *)

(** X4: when the reply has the expected shape but its [text] is not a
    string, the beep is played and then [draw_ui] fails on
    [prefix + text]: the outer handler removes the placeholder, so the
    conversation is the one before the request, and shows "Request
    Fail: " with the [TypeError]. *)
Theorem non_string_text_is_rolled_back dev s txt data v :
  wf s ->
  (network_check dev s).1 = true ->
  schema_value data = Some v ->
  as_str v = None ->
  let s' := call_gemini_api dev (Response 200 (Decoded txt (Some data))) s in
  conversation s' = conversation s
  /\ view s' = view s
  /\ overlay s' = overlay s ++ [RequestFail TypeError]
  /\ beeps s' = S (beeps s).
Proof.
  intros Hwf Hon Hshape Hv s'.
  apply (schema_value_read txt) in Hshape.
  assert (view s' = view s) as Hview.
  { unfold s'. rewrite call_view by done. cbn [reply_turn Z.eqb Pos.eqb].
    rewrite Hshape. destruct v; try done; apply app_nil_r. }
  assert (conversation s' = conversation s
          /\ overlay s' = overlay s ++ [RequestFail TypeError]
          /\ beeps s' = S (beeps s)) as (Hconv & Hover & Hbeeps).
  { unfold s'. rewrite call_online by done. cbv zeta.
    pose proof (network_check_true_overlay dev s Hon) as Hov.
    pose proof (network_check_beeps dev s) as Hb.
    checked dev s as s2.
    unfold handle_response. cbn [Z.eqb Pos.eqb negb]. rewrite Hshape.
    destruct v; try done;
      cbn [request_failed pop notify draw play conversation overlay
           set_conversation beeps];
      by rewrite sending_conversation, removelast_snoc, sending_overlay,
        Hov, Hc, <- Hb. }
  done.
Qed.

Lemma non_string_text_is_rolled_back_witness :
  let s := said #"Hello" in
  let s' := call_gemini_api cardputer
              (Response 200 (Decoded [] (Some (reply_body (JNum 42))))) s in
  conversation s' = conversation s
  /\ view s' = view s
  /\ overlay s' = overlay s ++ [RequestFail TypeError]
  /\ beeps s' = S (beeps s).
Proof.
  apply (non_string_text_is_rolled_back cardputer (said #"Hello") []
           (reply_body (JNum 42)) (JNum 42));
    [apply wf_said | reflexivity | reflexivity | reflexivity].
Defined.

Lemma handle_response_beeps dev bot status body s :
  beeps (handle_response dev bot status body s)
  = if text_was_read (Response status body) then S (beeps s) else beeps s.
Proof.
  unfold handle_response, text_was_read.
  destruct (status =? 200); cbn [negb andb]; [|done].
  destruct (read_reply body) as [e|[v|]]; [by destruct e| |done].
  by destruct v.
Qed.

(** X5: [call_gemini_api] plays the beep once when the request went out
    and status 200 came back with a body from which the reply text was
    read, and not at all otherwise: not without network, not when the
    transport raises, not for another status, not for a body that the
    check rejects. *)
Theorem beep_only_when_text_was_read dev reply s :
  beeps (call_gemini_api dev reply s)
  = if (network_check dev s).1 && text_was_read reply
    then S (beeps s) else beeps s.
Proof.
  pose proof (network_check_beeps dev s) as Hb.
  destruct (network_check dev s).1 eqn:Hon; cbn [andb].
  - rewrite call_online by done. cbv zeta. destruct reply as [d|st body].
    + exact Hb.
    + rewrite handle_response_beeps. cbn [beeps sending]. unfold sending.
      cbn [alloc post append set_conversation set_heap beeps].
      by rewrite Hb.
  - rewrite call_offline by done. exact Hb.
Qed.

(** ** Connecting *)

Section Connecting.

Variable dev : device.

Local Abbreviation H := (display_height dev).
Local Abbreviation W := (display_width dev).

Lemma wait_link_step fuel retries s :
  wait_link dev fuel retries s
  = if isconnected dev (polls s) then (poll dev s).2
    else match fuel with
         | O => (poll dev s).2
         | S fuel' =>
             wait_link dev fuel' (retries + 1)
               (draw [Text (#"Connecting WiFi... " ++ str_of_Z (retries + 1))
                           2 (H - 10) 9; Show] (poll dev s).2)
         end.
Proof. by destruct fuel. Qed.

(** The loop polls at least once and at most once more than it may
    retry. *)
Lemma wait_link_polls_bound fuel retries s :
  (polls s < polls (wait_link dev fuel retries s) <= polls s + S fuel)%nat.
Proof.
  revert retries s. induction fuel as [|fuel IH]; intros retries s;
    rewrite wait_link_step.
  - destruct (isconnected dev (polls s)); cbn; lia.
  - destruct (isconnected dev (polls s)); [cbn; lia|].
    match goal with |- context [wait_link dev fuel ?r ?t] =>
      specialize (IH r t); change (polls t) with (S (polls s)) in IH end.
    lia.
Qed.

(** The link answers down [k] times and then up, within the retries. *)
Lemma wait_link_first_up fuel retries s k :
  (k <= fuel)%nat ->
  (forall j, (j < k)%nat -> isconnected dev (polls s + j) = false) ->
  isconnected dev (polls s + k) = true ->
  polls (wait_link dev fuel retries s) = (polls s + S k)%nat
  /\ screen (wait_link dev fuel retries s)
     = screen s ++ countdown H retries k.
Proof.
  revert retries s k. induction fuel as [|fuel IH]; intros retries s k Hk Hdown Hup;
    rewrite wait_link_step.
  - assert (k = 0%nat) as -> by lia. rewrite Nat.add_0_r in Hup.
    rewrite Hup. cbn. by rewrite app_nil_r, Nat.add_1_r.
  - destruct k as [|k].
    + rewrite Nat.add_0_r in Hup. rewrite Hup. cbn.
      by rewrite app_nil_r, Nat.add_1_r.
    + specialize (Hdown 0%nat ltac:(lia)) as H0.
      rewrite Nat.add_0_r in H0. rewrite H0.
      match goal with |- context [wait_link dev fuel ?r ?t] =>
        specialize (IH r t k ltac:(lia));
        change (polls t) with (S (polls s)) in IH;
        change (screen t)
          with (screen s ++ [Text (#"Connecting WiFi... "
                                     ++ str_of_Z (retries + 1))
                                  2 (H - 10) 9; Show]) in IH end.
      destruct IH as [IHp IHs].
      * intros j Hj. replace (S (polls s) + j)%nat
          with (polls s + S j)%nat by lia. apply Hdown. lia.
      * by replace (S (polls s) + k)%nat with (polls s + S k)%nat by lia.
      * split; [lia|]. rewrite IHs, <- app_assoc. done.
Qed.

(** The link answers down as long as the loop asks. *)
Lemma wait_link_all_down fuel retries s :
  (forall j, (j <= fuel)%nat -> isconnected dev (polls s + j) = false) ->
  polls (wait_link dev fuel retries s) = (polls s + S fuel)%nat
  /\ screen (wait_link dev fuel retries s)
     = screen s ++ countdown H retries fuel.
Proof.
  revert retries s. induction fuel as [|fuel IH]; intros retries s Hdown;
    rewrite wait_link_step;
    specialize (Hdown 0%nat ltac:(lia)) as H0;
    rewrite Nat.add_0_r in H0; rewrite H0.
  - cbn. by rewrite app_nil_r, Nat.add_1_r.
  - match goal with |- context [wait_link dev fuel ?r ?t] =>
      specialize (IH r t);
      change (polls t) with (S (polls s)) in IH;
      change (screen t)
        with (screen s ++ [Text (#"Connecting WiFi... "
                                   ++ str_of_Z (retries + 1))
                                2 (H - 10) 9; Show]) in IH end.
    destruct IH as [IHp IHs].
    + intros j Hj. replace (S (polls s) + j)%nat
        with (polls s + S j)%nat by lia. apply Hdown. lia.
    + split; [lia|]. rewrite IHs, <- app_assoc. done.
Qed.

End Connecting.

Section Reconnect.

Variable dev : device.

Local Abbreviation H := (display_height dev).
Local Abbreviation W := (display_width dev).

Lemma connect_wifi_eq s :
  connect_wifi dev s
  = if negb (has_credentials dev)
    then (false, notify (Error #"No WiFi credentials!") s)
    else if isconnected dev (polls s) then (true, (poll dev s).2)
    else
      let s4 := draw [Rect 0 (H - 10) W 10 2 true; Show] (waited dev s) in
      if isconnected dev (polls (waited dev s)) then (true, (poll dev s4).2)
      else (false, notify (Error #"WiFi connection failed!") (poll dev s4).2).
Proof.
  unfold connect_wifi, has_credentials, waited. rewrite negb_andb.
  destruct (negb _ || negb _); [done|].
  change (poll dev s) with (isconnected dev (polls s), (poll dev s).2).
  cbv beta iota.
  destruct (isconnected dev (polls s)); [done|]. cbv zeta. cbn [snd].
  generalize (wait_link dev 20 0
    (draw [Text #"Connecting WiFi..." 2 (H - 10) 9; Show] (poll dev s).2)).
  intros s3.
  change (poll dev (draw [Rect 0 (H - 10) W 10 2 true; Show] s3))
    with (isconnected dev (polls s3),
          (poll dev (draw [Rect 0 (H - 10) W 10 2 true; Show] s3)).2).
  cbv beta iota. by destruct (isconnected dev (polls s3)).
Qed.

Lemma waited_polls s :
  (polls s + 2 <= polls (waited dev s) <= polls s + 22)%nat.
Proof.
  unfold waited.
  match goal with |- context [wait_link dev ?f ?r ?t] =>
    pose proof (wait_link_polls_bound dev f r t) as Hb;
    change (polls t) with (S (polls s)) in Hb end.
  lia.
Qed.

Lemma waited_overlay s : overlay (waited dev s) = overlay s.
Proof. unfold waited. by rewrite wait_link_overlay. Qed.

Lemma waited_all_down s :
  (forall n, (polls s < n <= polls s + 21)%nat -> isconnected dev n = false) ->
  polls (waited dev s) = (polls s + 22)%nat
  /\ screen (waited dev s)
     = screen s ++ [Text #"Connecting WiFi..." 2 (H - 10) 9; Show]
         ++ countdown H 0 20.
Proof.
  intros Hdown. unfold waited.
  match goal with |- context [wait_link dev ?f ?r ?t] =>
    pose proof (wait_link_all_down dev f r t) as Hw;
    change (polls t) with (S (polls s)) in Hw;
    change (screen t)
      with (screen s ++ [Text #"Connecting WiFi..." 2 (H - 10) 9; Show])
      in Hw
  end.
  destruct Hw as [Hp Hs]; [intros j Hj; apply Hdown; lia|].
  split; [lia|]. by rewrite Hs, <- app_assoc.
Qed.

Lemma waited_first_up s i :
  (polls s < i <= polls s + 21)%nat ->
  (forall n, (polls s < n < i)%nat -> isconnected dev n = false) ->
  isconnected dev i = true ->
  polls (waited dev s) = S i.
Proof.
  intros Hi Hdown Hup. unfold waited.
  match goal with |- context [wait_link dev ?f ?r ?t] =>
    pose proof (wait_link_first_up dev f r t (i - S (polls s))) as Hw;
    change (polls t) with (S (polls s)) in Hw
  end.
  destruct Hw as [Hp _]; [lia| |by replace (S (polls s) + (i - S (polls s)))%nat with i by lia|lia].
  intros j Hj. apply Hdown. lia.
Qed.

(** What [connect_wifi] does to the count of polls and to the notices. *)
Lemma connect_wifi_cases s :
  (polls s <= polls (connect_wifi dev s).2 <= polls s + 23)%nat
  /\ ((connect_wifi dev s).1 = true ->
      overlay (connect_wifi dev s).2 = overlay s
      /\ exists n, polls (connect_wifi dev s).2 = S n
                   /\ isconnected dev n = true)
  /\ ((connect_wifi dev s).1 = false ->
      exists msg,
        overlay (connect_wifi dev s).2 = overlay s ++ [Error msg]
        /\ (msg = #"No WiFi credentials!"
            \/ msg = #"WiFi connection failed!")).
Proof.
  rewrite connect_wifi_eq.
  destruct (negb (has_credentials dev)).
  { cbn [fst snd notify polls overlay]. split; [lia|].
    split; [done|]. intros _. eexists. split; [done|by left]. }
  destruct (isconnected dev (polls s)) eqn:E0.
  { cbn [fst snd poll polls overlay]. split; [lia|].
    split; [|done]. intros _. split; [done|]. by exists (polls s). }
  cbv zeta. pose proof (waited_polls s) as Hb.
  pose proof (waited_overlay s) as Ho.
  destruct (isconnected dev (polls (waited dev s))) eqn:E1;
    cbn [fst snd poll notify draw polls overlay].
  - split; [lia|]. split; [|done]. intros _. split; [done|].
    by exists (polls (waited dev s)).
  - split; [lia|]. split; [done|]. intros _. eexists.
    split; [by rewrite Ho|by right].
Qed.

End Reconnect.

(** X6: [connect_wifi] asks the link at most 23 times (once, then at
    most 21 times in the loop of 20 retries, then once more), changes
    neither the conversation nor the posted requests, answers [True]
    only when the last answer of the link was that it is up, and then
    shows no notice; when it answers [False] it shows exactly one notice,
    "No WiFi credentials!" or "WiFi connection failed!". *)
Theorem connect_wifi_is_bounded dev s :
  let r := connect_wifi dev s in
  (polls s <= polls r.2 <= polls s + 23)%nat
  /\ store r.2 = store s
  /\ (r.1 = true ->
      overlay r.2 = overlay s
      /\ exists n, polls r.2 = S n /\ isconnected dev n = true)
  /\ (r.1 = false ->
      exists msg,
        overlay r.2 = overlay s ++ [Error msg]
        /\ (msg = #"No WiFi credentials!"
            \/ msg = #"WiFi connection failed!")).
Proof.
  intros r. unfold r.
  destruct (connect_wifi_cases dev s) as (Hp & Ht & Hf).
  split; [exact Hp|]. split; [apply connect_wifi_store|]. by split.
Qed.

(** X7: with both credentials set and a link that is down whenever it
    is asked, [connect_wifi] asks 23 times, draws "Connecting WiFi..."
    and then the count from 1 to 20, clears the line, shows "WiFi
    connection failed!" and answers [False]. *)
Theorem connect_wifi_gives_up dev s :
  has_credentials dev = true ->
  (forall n, (polls s <= n <= polls s + 22)%nat -> isconnected dev n = false) ->
  let r := connect_wifi dev s in
  let H := display_height dev in
  r.1 = false
  /\ polls r.2 = (polls s + 23)%nat
  /\ overlay r.2 = overlay s ++ [Error #"WiFi connection failed!"]
  /\ screen r.2
     = screen s ++ [Text #"Connecting WiFi..." 2 (H - 10) 9; Show]
         ++ countdown H 0 20
         ++ [Rect 0 (H - 10) (display_width dev) 10 2 true; Show].
Proof.
  intros Hcred Hdown r H. unfold r. rewrite connect_wifi_eq, Hcred.
  cbn [negb]. rewrite (Hdown (polls s)) by lia. cbv zeta.
  destruct (waited_all_down dev s) as [Hp Hs].
  { intros n Hn. apply Hdown. lia. }
  rewrite Hp. rewrite (Hdown (polls s + 22)%nat) by lia.
  cbn [fst snd poll notify draw polls overlay screen].
  rewrite Hp, Hs, waited_overlay, <- !app_assoc.
  repeat split; try done.
Qed.

Lemma connect_wifi_gives_up_witness :
  let r := connect_wifi offline initial in
  r.1 = false
  /\ polls r.2 = 23%nat
  /\ overlay r.2 = [Error #"WiFi connection failed!"]
  /\ screen r.2
     = [Text #"Connecting WiFi..." 2 125 9; Show] ++ countdown 135 0 20
         ++ [Rect 0 125 240 10 2 true; Show].
Proof.
  apply (connect_wifi_gives_up offline initial); [reflexivity|].
  intros n _. reflexivity.
Defined.

(** X8: with both credentials set, when the link is down up to some
    poll and up from then on, and that poll is among the 23 that
    [connect_wifi] can make, [connect_wifi] answers [True] without a
    notice, at the latest two polls after the link came up. *)
Theorem connect_wifi_sees_the_link dev s i :
  has_credentials dev = true ->
  (polls s <= i <= polls s + 22)%nat ->
  (forall n, (polls s <= n < i)%nat -> isconnected dev n = false) ->
  (forall n, (i <= n)%nat -> isconnected dev n = true) ->
  let r := connect_wifi dev s in
  r.1 = true /\ overlay r.2 = overlay s /\ (polls r.2 <= i + 2)%nat.
Proof.
  intros Hcred Hi Hdown Hup r. unfold r. rewrite connect_wifi_eq, Hcred.
  cbn [negb].
  destruct (decide (i = polls s)) as [->|Hne].
  { rewrite Hup by lia. cbn [fst snd poll polls overlay].
    repeat split; try done. lia. }
  rewrite (Hdown (polls s)) by lia. cbv zeta.
  assert (polls (waited dev s) = S i \/ polls (waited dev s) = i) as Hp.
  { destruct (decide (i = polls s + 22)%nat) as [->|Hne'].
    - right. apply waited_all_down. intros n Hn. apply Hdown. lia.
    - left. apply waited_first_up; [lia| |apply Hup; lia].
      intros n Hn. apply Hdown. lia. }
  rewrite Hup by lia.
  cbn [fst snd poll draw polls overlay]. rewrite waited_overlay.
  repeat split; try done. lia.
Qed.

Lemma connect_wifi_sees_the_link_witness :
  let r := connect_wifi slow_link initial in
  r.1 = true /\ overlay r.2 = overlay initial /\ (polls r.2 <= 8 + 2)%nat.
Proof.
  apply (connect_wifi_sees_the_link slow_link initial 8); [reflexivity|..].
  - cbn. lia.
  - intros n Hn. change (isconnected slow_link n) with (8 <=? n)%nat.
    apply Nat.leb_gt. cbn in Hn. lia.
  - intros n Hn. change (isconnected slow_link n) with (8 <=? n)%nat.
    apply Nat.leb_le. lia.
Defined.

(** X9: when the link is down on entry and [connect_wifi] fails,
    [call_gemini_api] shows two notices one after the other, the one of
    [connect_wifi] and then "API: No network!", after asking the link at
    most 24 times. *)
Theorem no_network_shows_two_notices dev reply s :
  (network_check dev s).1 = false ->
  let s' := call_gemini_api dev reply s in
  (polls s < polls s' <= polls s + 24)%nat
  /\ exists msg,
       overlay s' = overlay s ++ [Error msg; Error #"API: No network!"]
       /\ (msg = #"No WiFi credentials!" \/ msg = #"WiFi connection failed!").
Proof.
  intros Hoff s'. unfold s'. rewrite call_offline by done.
  revert Hoff. unfold network_check.
  change (poll dev s) with (isconnected dev (polls s), (poll dev s).2).
  cbv beta iota. destruct (isconnected dev (polls s)); [done|].
  intros Hoff.
  destruct (connect_wifi_cases dev (poll dev s).2) as (Hp & _ & Hf).
  destruct (Hf Hoff) as (msg & Ho & Hmsg).
  change (polls (poll dev s).2) with (S (polls s)) in Hp.
  change (overlay (poll dev s).2) with (overlay s) in Ho.
  generalize dependent (connect_wifi dev (poll dev s).2). intros c Hoff Hp _ Ho.
  cbn [notify polls overlay]. split; [lia|].
  exists msg. split; [|done]. rewrite Ho, <- app_assoc. done.
Qed.

Lemma no_network_shows_two_notices_witness :
  let s' := call_gemini_api offline (Raises []) (said #"Hello") in
  (polls (said #"Hello") < polls s' <= polls (said #"Hello") + 24)%nat
  /\ exists msg,
       overlay s' = overlay (said #"Hello")
                      ++ [Error msg; Error #"API: No network!"]
       /\ (msg = #"No WiFi credentials!" \/ msg = #"WiFi connection failed!").
Proof.
  apply (no_network_shows_two_notices offline (Raises []) (said #"Hello")).
  reflexivity.
Defined.

(** X10: when a credential is missing, [connect_wifi] fails at once
    with "No WiFi credentials!" and does not ask the link, whether it is
    up or not; a request made while the link is down then asks the link
    once and shows that notice and "API: No network!", while a request
    made while the link is up goes out all the same. *)
Theorem missing_credentials dev reply s :
  has_credentials dev = false ->
  connect_wifi dev s = (false, notify (Error #"No WiFi credentials!") s)
  /\ (isconnected dev (polls s) = false ->
      let s' := call_gemini_api dev reply s in
      polls s' = S (polls s)
      /\ overlay s' = overlay s ++ [Error #"No WiFi credentials!";
                                     Error #"API: No network!"]
      /\ posted s' = posted s /\ conversation s' = conversation s)
  /\ (isconnected dev (polls s) = true ->
      (network_check dev s).1 = true
      /\ length (posted (call_gemini_api dev reply s))
         = S (length (posted s))).
Proof.
  intros Hcred.
  assert (forall t, connect_wifi dev t
                    = (false, notify (Error #"No WiFi credentials!") t))
    as Hc by (intros t; by rewrite connect_wifi_eq, Hcred).
  split; [apply Hc|]. split.
  - intros Hdown s'. unfold s', call_gemini_api, network_check.
    change (poll dev s) with (isconnected dev (polls s), (poll dev s).2).
    cbv beta iota. rewrite Hdown, Hc. cbn [negb].
    cbn [notify poll snd polls overlay posted conversation].
    by rewrite <- app_assoc.
  - intros Hup.
    assert ((network_check dev s).1 = true) as Hon.
    { unfold network_check.
      change (poll dev s) with (isconnected dev (polls s), (poll dev s).2).
      cbv beta iota. by rewrite Hup. }
    split; [done|]. rewrite call_online by done. cbv zeta.
    pose proof (network_check_store dev s) as Hst. unfold store in Hst.
    injection Hst as _ _ Hp _.
    destruct reply as [d|st body].
    + cbn [request_failed pop notify posted set_conversation].
      unfold sending. cbn [alloc post posted append set_conversation
                           set_heap].
      rewrite length_app, Hp. cbn. lia.
    + rewrite handle_response_posted. unfold sending.
      cbn [alloc post posted append set_conversation set_heap].
      rewrite length_app, Hp. cbn. lia.
Qed.

Lemma missing_credentials_witness :
  connect_wifi no_password initial
  = (false, notify (Error #"No WiFi credentials!") initial)
  /\ (network_check no_password initial).1 = true.
Proof.
  destruct (missing_credentials no_password (Raises []) initial eq_refl)
    as (Hc & _ & Hup).
  split; [exact Hc|]. apply Hup. reflexivity.
Defined.

(** ** The painted history *)

Lemma paint_lines_at lines y color i op :
  (paint_lines lines y color).1 !! i = Some op ->
  exists line, op = Text line 2 (y - 10 * (Z.of_nat i + 1)) color.
Proof.
  revert y i. induction lines as [|line lines IH]; intros y i; [done|].
  cbn [paint_lines]. destruct (y - 10 <? 14); [done|].
  specialize (IH (y - 10)).
  destruct (paint_lines lines (y - 10) color) as [ops y2]. cbn [fst] in *.
  destruct i as [|i]; cbn.
  - intros [= <-]. exists line. f_equal; lia.
  - intros Hi. destruct (IH i Hi) as [l ->]. exists l. f_equal; lia.
Qed.

Lemma paint_lines_y lines y color :
  14 <= (paint_lines lines y color).2 ->
  (paint_lines lines y color).2
  = y - 10 * Z.of_nat (length (paint_lines lines y color).1)
  /\ texts (paint_lines lines y color).1 = lines.
Proof.
  revert y. induction lines as [|line lines IH]; intros y.
  { cbn. intros _. split; [lia|done]. }
  cbn [paint_lines]. destruct (Z.ltb_spec (y - 10) 14); [cbn; lia|].
  specialize (IH (y - 10)).
  destruct (paint_lines lines (y - 10) color) as [ops y2]. cbn [fst snd] in *.
  intros Hy. destruct (IH Hy) as [-> Ht]. cbn [length].
  split; [lia|].
  change (texts (Text line 2 (y - 10) color :: ops)) with (line :: texts ops).
  by rewrite Ht.
Qed.

Lemma paint_lines_prefix lines y color :
  texts (paint_lines lines y color).1 `prefix_of` lines.
Proof.
  revert y. induction lines as [|line lines IH]; intros y.
  { by exists []. }
  cbn [paint_lines]. destruct (y - 10 <? 14); [by eexists|].
  specialize (IH (y - 10)).
  destruct (paint_lines lines (y - 10) color) as [ops y2]. cbn [fst] in *.
  change (texts (Text line 2 (y - 10) color :: ops)) with (line :: texts ops).
  by apply prefix_cons.
Qed.

Lemma paint_entries_cons dev e entries y :
  paint_entries dev (e :: entries) y
  = let color := match role e with user => 10 | model => 13 end in
    let painted := paint_lines (rev (lines_of dev e)) y color in
    if painted.2 <? 14 then painted.1
    else painted.1 ++ paint_entries dev entries painted.2.
Proof.
  cbn [paint_entries]. unfold lines_of. cbv zeta.
  by destruct (paint_lines _ _ _).
Qed.

Lemma paint_entries_at dev entries y i op :
  paint_entries dev entries y !! i = Some op ->
  exists line color,
    op = Text line 2 (y - 10 * (Z.of_nat i + 1)) color
    /\ (color = 10 \/ color = 13).
Proof.
  revert y i. induction entries as [|e entries IH]; intros y i; [done|].
  rewrite paint_entries_cons. cbv zeta.
  set (color := match role e with user => 10 | model => 13 end).
  assert (color = 10 \/ color = 13) as Hcolor
    by (unfold color; destruct (role e); auto).
  pose proof (paint_lines_at (rev (lines_of dev e)) y color) as Hat.
  pose proof (paint_lines_y (rev (lines_of dev e)) y color) as Hy.
  destruct (paint_lines (rev (lines_of dev e)) y color) as [ops y1].
  cbn [fst snd] in *.
  destruct (Z.ltb_spec y1 14) as [|Hge].
  - intros Hi. destruct (Hat i op Hi) as [line ->]. by exists line, color.
  - intros Hi. apply lookup_app_Some in Hi as [Hi|[Hlen Hi]].
    + destruct (Hat i op Hi) as [line ->]. by exists line, color.
    + destruct (IH _ _ Hi) as (line & c & -> & Hc).
      exists line, c. split; [|done]. f_equal.
      destruct (Hy Hge) as [-> _]. lia.
Qed.

Lemma texts_app a b : texts (a ++ b) = texts a ++ texts b.
Proof. apply omap_app. Qed.

Lemma paint_entries_prefix dev entries y :
  texts (paint_entries dev entries y)
  `prefix_of` concat (map (fun e => rev (lines_of dev e)) entries).
Proof.
  revert y. induction entries as [|e entries IH]; intros y; [by exists []|].
  rewrite paint_entries_cons. cbv zeta. cbn [map concat].
  pose proof (paint_lines_prefix (rev (lines_of dev e)) y
                (match role e with user => 10 | model => 13 end)) as Hp.
  pose proof (paint_lines_y (rev (lines_of dev e)) y
                (match role e with user => 10 | model => 13 end)) as Hy.
  destruct (paint_lines _ _ _) as [ops y1]. cbn [fst snd] in *.
  destruct (Z.ltb_spec y1 14) as [|Hge].
  - etrans; [exact Hp|]. by apply prefix_app_r.
  - destruct (Hy Hge) as [_ Ht]. rewrite texts_app, Ht.
    by apply prefix_app.
Qed.

Lemma paint_entries_all dev entries y :
  14 <= y - 10 * Z.of_nat (length (concat (map (fun e => rev (lines_of dev e))
                                               entries))) ->
  texts (paint_entries dev entries y)
  = concat (map (fun e => rev (lines_of dev e)) entries).
Proof.
  revert y. induction entries as [|e entries IH]; intros y; [done|].
  rewrite paint_entries_cons. cbv zeta. cbn [map concat].
  rewrite length_app. intros Hfit.
  assert (forall lines y0 color,
            14 <= y0 - 10 * Z.of_nat (length lines) ->
            (paint_lines lines y0 color).2
            = y0 - 10 * Z.of_nat (length lines)) as Hall.
  { clear. induction lines as [|l lines IHl]; intros y0 color Hf.
    - cbn. lia.
    - cbn [paint_lines]. cbn [length] in Hf.
      destruct (Z.ltb_spec (y0 - 10) 14); [lia|].
      specialize (IHl (y0 - 10) color ltac:(lia)).
      destruct (paint_lines lines (y0 - 10) color) as [ops y2].
      cbn [snd length] in *. lia. }
  pose proof (Hall (rev (lines_of dev e)) y
                (match role e with user => 10 | model => 13 end)
                ltac:(lia)) as Hy1.
  pose proof (paint_lines_y (rev (lines_of dev e)) y
                (match role e with user => 10 | model => 13 end)) as Hy.
  destruct (paint_lines _ _ _) as [ops y1]. cbn [fst snd] in *.
  subst y1. destruct (Hy ltac:(lia)) as [_ Ht].
  destruct (Z.ltb_spec (y - 10 * Z.of_nat (length (rev (lines_of dev e)))) 14);
    [lia|].
  rewrite texts_app, Ht. f_equal. apply IH. lia.
Qed.

(** X11: the history is painted in rows ten pixels apart from the
    bottom: the i-th call of a paint, counted from 0, draws a line at
    [x = 2] and [y = H - 14 - 10 i], in the colour of the user or of the
    model; so the lines never overlap, and at most [(H - 18) / 10] of
    them are painted. *)
Theorem history_rows dev s i op :
  draw_history dev s !! i = Some op ->
  (exists line color,
     op = Text line 2 (display_height dev - 14 - 10 * Z.of_nat i) color
     /\ (color = 10 \/ color = 13))
  /\ 10 * Z.of_nat (length (draw_history dev s)) <= display_height dev - 18.
Proof.
  intros Hi. split.
  - unfold draw_history in Hi. apply paint_entries_at in Hi
      as (line & color & -> & Hc).
    exists line, color. split; [f_equal; lia|done].
  - pose proof (paint_entries_below_header dev
                  (rev (filter (fun e => e <> SYSTEM_PROMPT) (view s)))
                  (display_height dev - 4)) as Hb.
    fold (draw_history dev s) in Hb.
    assert (exists n, length (draw_history dev s) = S n) as [n Hn].
    { apply lookup_lt_Some in Hi. destruct (length _); [lia|by eexists]. }
    assert (is_Some (draw_history dev s !! n)) as [last Hlast]
      by (apply lookup_lt_is_Some; lia).
    rewrite Forall_forall in Hb.
    specialize (Hb last ltac:(by eapply list_elem_of_lookup_2)).
    unfold draw_history in Hlast. apply paint_entries_at in Hlast
      as (line & color & -> & _).
    cbn in Hb. lia.
Qed.

Lemma history_rows_witness :
  (exists line color,
     Text #"You: Hello" 2 121 10
     = Text line 2 (display_height cardputer - 14 - 10 * Z.of_nat 0) color
     /\ (color = 10 \/ color = 13))
  /\ 10 * Z.of_nat (length (draw_history cardputer (said #"Hello")))
     <= display_height cardputer - 18.
Proof.
  apply (history_rows cardputer (said #"Hello") 0). reflexivity.
Defined.

(** X12: the history is painted newest message first and, within a
    message, last line first: the strings drawn are a prefix of the
    wrapped lines of the shown messages taken in that order, and all of
    them when ten pixels per line fit between the bottom margin and
    [y = 14]. *)
Theorem history_is_painted_newest_first dev s :
  let rows := concat (map (fun e => rev (lines_of dev e)) (rev (shown s))) in
  texts (draw_history dev s) `prefix_of` rows
  /\ (10 * Z.of_nat (length rows) <= display_height dev - 18 ->
      texts (draw_history dev s) = rows).
Proof.
  intros rows. split; [apply paint_entries_prefix|].
  intros Hfit. apply paint_entries_all. fold (shown s). fold rows. lia.
Qed.

Lemma history_is_painted_newest_first_witness :
  let s := said #"Hello" in
  let rows :=
    concat (map (fun e => rev (lines_of cardputer e)) (rev (shown s))) in
  10 * Z.of_nat (length rows) <= display_height cardputer - 18
  /\ texts (draw_history cardputer s) = rows.
Proof.
  assert (10 * Z.of_nat (length (concat (map
            (fun e => rev (lines_of cardputer e))
            (rev (shown (said #"Hello"))))))
          <= display_height cardputer - 18) as Hfit.
  { vm_compute. discriminate. }
  split; [exact Hfit|].
  exact (proj2 (history_is_painted_newest_first cardputer (said #"Hello")) Hfit).
Defined.

(** X13: a message equal to the persona, such as the user typing its
    text, is appended to the conversation like any other but is neither
    painted nor sent as history; and in every payload the persona occurs
    only at the head. *)
Theorem persona_is_filtered dev s :
  Forall (fun e => e <> SYSTEM_PROMPT) (tail (payload_contents s))
  /\ (wf s ->
      let s1 := say dev (text SYSTEM_PROMPT) s in
      view s1 = view s ++ [SYSTEM_PROMPT]
      /\ draw_history dev s1 = draw_history dev s
      /\ payload_contents s1 = payload_contents s).
Proof.
  split.
  - rewrite payload_contents_view. cbn [tail].
    apply Forall_forall. intros e He. apply subseteq_drop in He.
    by apply list_elem_of_filter in He as [? _].
  - intros Hwf s1.
    assert (view s1 = view s ++ [SYSTEM_PROMPT]) as Hv
      by (unfold s1; by rewrite say_view).
    split; [exact Hv|].
    assert (filter (fun e => e <> SYSTEM_PROMPT) (view s1)
            = filter (fun e => e <> SYSTEM_PROMPT) (view s)) as Hf.
    { rewrite Hv, filter_app, filter_cons_False by (intros H; by apply H).
      by rewrite filter_nil, app_nil_r. }
    split.
    + unfold draw_history. by rewrite Hf.
    + by rewrite !payload_contents_view, Hf.
Qed.

Lemma persona_is_filtered_witness :
  let s := said #"Hello" in
  let s1 := say cardputer (text SYSTEM_PROMPT) s in
  view s1 = view s ++ [SYSTEM_PROMPT]
  /\ draw_history cardputer s1 = draw_history cardputer s
  /\ payload_contents s1 = payload_contents s.
Proof.
  apply (proj2 (persona_is_filtered cardputer (said #"Hello"))).
  apply wf_said.
Defined.

(** ** Edge cases of [wrap_text] *)

Lemma split_space_blank text :
  blank text = true -> split_space text = replicate (S (length text)) [].
Proof.
  unfold split_space. induction text as [|c text IH]; [done|].
  cbn [blank forallb]. intros [Hc Ht]%andb_true_iff.
  cbn [split_on]. rewrite Hc. by rewrite (IH Ht).
Qed.

Lemma split_space_word word :
  Forall (fun c => c <> space) word -> split_space word = [word].
Proof.
  unfold split_space. induction 1 as [|c word Hc _ IH]; [done|].
  cbn [split_on]. rewrite IH.
  destruct (is_space c) eqn:E; [|done]. by apply is_space_eq in E.
Qed.

Lemma join_space_cons x xs :
  join_space (x :: xs) = x ++ concat (map (cons space) xs).
Proof.
  revert x. induction xs as [|y ys IH]; intros x.
  - cbn. by rewrite app_nil_r.
  - change (join_space (x :: y :: ys)) with (x ++ space :: join_space (y :: ys)).
    by rewrite IH.
Qed.

Lemma glue_truthy cur words :
  cur <> [] -> glue cur words = cur ++ concat (map (cons space) words).
Proof.
  revert cur. induction words as [|x xs IH]; intros cur Hcur.
  - cbn. by rewrite app_nil_r.
  - destruct cur as [|c cur]; [done|].
    change (glue (c :: cur) (x :: xs))
      with (glue ((c :: cur) ++ [space] ++ x) xs).
    rewrite IH by done. cbn. by rewrite <- !app_assoc.
Qed.

Lemma glue_nil_word x xs : x <> [] -> glue [] (x :: xs) = join_space (x :: xs).
Proof.
  intros Hx. change (glue [] (x :: xs)) with (glue x xs).
  by rewrite glue_truthy, join_space_cons.
Qed.

Lemma piece_nil s : piece [] s.
Proof. by exists [], s. Qed.

Lemma piece_cons c p s : piece p s -> piece p (c :: s).
Proof. intros (a & b & ->). by exists (c :: a), b. Qed.

Lemma word_piece words x : x ∈ words -> piece x (join_space words).
Proof.
  induction words as [|y ys IH]; [by intros ?%elem_of_nil|].
  intros [-> | Hx]%elem_of_cons.
  - rewrite join_space_cons. by eexists [], _.
  - destruct ys as [|y' ys']; [by apply elem_of_nil in Hx|].
    destruct (IH Hx) as (a & b & E).
    change (join_space (y :: y' :: ys'))
      with (y ++ space :: join_space (y' :: ys')).
    rewrite E. exists (y ++ space :: a), b. by rewrite <- app_assoc.
Qed.

Lemma glue_piece words k : piece (glue [] (take k words)) (join_space words).
Proof.
  revert k. induction words as [|x xs IH]; intros k.
  { rewrite take_nil. apply piece_nil. }
  destruct k as [|k]; [apply piece_nil|]. cbn [take].
  destruct x as [|c x].
  - change (glue [] ([] :: take k xs)) with (glue [] (take k xs)).
    destruct xs as [|y ys]; [rewrite take_nil; apply piece_nil|].
    change (join_space ([] :: y :: ys)) with (space :: join_space (y :: ys)).
    apply piece_cons, IH.
  - rewrite glue_nil_word, !join_space_cons by done.
    rewrite <- (take_drop k xs) at 2. rewrite map_app, concat_app.
    exists [], (concat (map (cons space) (drop k xs))).
    by rewrite app_nil_l, <- app_assoc.
Qed.

Lemma strip_space_cons s : strip (space :: s) = strip s.
Proof. unfold strip. cbn [lstrip]. by rewrite isspace_space. Qed.

Lemma glue_words words :
  Forall (Forall (fun c => c <> space)) words ->
  strip (glue [] words) = strip (join_space words)
  /\ truthy (glue [] words) = negb (blank (join_space words)).
Proof.
  induction 1 as [|x xs Hx _ IH]; [done|].
  destruct x as [|c x].
  - change (glue [] ([] :: xs)) with (glue [] xs).
    destruct xs as [|y ys]; [done|].
    change (join_space ([] :: y :: ys)) with (space :: join_space (y :: ys)).
    by rewrite strip_space_cons.
  - rewrite glue_nil_word by done. split; [done|].
    rewrite join_space_cons. cbn [app truthy blank forallb].
    apply Forall_cons_1 in Hx as [Hc _].
    destruct (is_space c) eqn:E; [|done]. by apply is_space_eq in E.
Qed.

Section Edge.

Variable measure : str -> Z.
Variable width : Z.

Lemma wrap_word_empty :
  wrap_word measure width ([], []) [] = ([], []).
Proof.
  unfold wrap_word. cbn [split_long truthy app].
  destruct (width <? measure []); [done|].
  by destruct (measure [] <=? width).
Qed.

Lemma wrap_words_empty n :
  wrap_words measure width (replicate n []) ([], []) = ([], []).
Proof.
  induction n as [|n IH]; [done|].
  unfold wrap_words in *. cbn [replicate fold_left].
  by rewrite wrap_word_empty.
Qed.

Lemma wrap_words_glue words cur :
  Forall (fun word => measure word <= width) words ->
  (forall k, measure (glue cur (take k words)) <= width) ->
  wrap_words measure width words ([], cur) = ([], glue cur words).
Proof.
  intros Hwords. revert cur.
  induction Hwords as [|x xs Hx _ IH]; intros cur Hk; [done|].
  change (wrap_words measure width (x :: xs) ([], cur))
    with (wrap_words measure width xs (wrap_word measure width ([], cur) x)).
  assert (wrap_word measure width ([], cur) x
          = ([], cur ++ (if truthy cur then [space] else []) ++ x)) as ->.
  { unfold wrap_word. destruct (Z.ltb_spec width (measure x)); [lia|].
    pose proof (Hk 1%nat) as H1.
    change (glue cur (take 1 (x :: xs)))
      with (cur ++ (if truthy cur then [space] else []) ++ x) in H1.
    by destruct (Z.leb_spec
                   (measure (cur ++ (if truthy cur then [space] else [])
                                 ++ x)) width); [|lia]. }
  rewrite IH; [done|]. intros k. apply (Hk (S k)).
Qed.

Lemma split_long_lines word lines temp_word_part :
  split_long measure width word lines temp_word_part
  = (lines ++ (split_long measure width word [] temp_word_part).1,
     (split_long measure width word [] temp_word_part).2).
Proof.
  revert lines temp_word_part.
  induction word as [|char word IH]; intros lines temp; cbn [split_long].
  - by rewrite app_nil_r.
  - destruct (_ <=? width); [apply IH|].
    rewrite IH.
    rewrite (IH (if truthy temp then [] ++ [temp] else [])).
    cbn [fst snd]. destruct (truthy temp); [|done].
    by rewrite <- app_assoc.
Qed.

Lemma wrap_word_long lines current_line word :
  width < measure word ->
  wrap_word measure width (lines, current_line) word
  = (lines ++ (wrap_word measure width ([], []) word).1, []).
Proof.
  intros Hlong. unfold wrap_word.
  destruct (Z.ltb_spec width (measure word)); [|lia].
  rewrite split_long_lines.
  destruct (split_long measure width word [] []) as [l1 t] eqn:E.
  cbn [fst snd app]. destruct (truthy t); [|done].
  by rewrite <- app_assoc.
Qed.

Lemma wrap_text_word word :
  Forall (fun c => c <> space) word ->
  width < measure word ->
  wrap_text measure word width = (wrap_word measure width ([], []) word).1.
Proof.
  intros Hword Hlong. unfold wrap_text, wrap_words.
  rewrite split_space_word by done. cbn [fold_left].
  rewrite wrap_word_long by done. cbn [truthy app].
  by destruct (wrap_word _ _ _ _).
Qed.

End Edge.

(** X14: a text of spaces only, the empty text among them, is wrapped
    into no line at all, whatever the font and the width, also when the
    empty string itself measures wider than the line. *)
Theorem blank_text_has_no_lines measure text width :
  blank text = true -> wrap_text measure text width = [].
Proof.
  intros Hblank. unfold wrap_text.
  by rewrite split_space_blank, wrap_words_empty.
Qed.

Lemma blank_text_has_no_lines_witness :
  blank #"   " = true /\ wrap_text fixed8 #"   " (-1) = [].
Proof.
  split; [reflexivity|].
  apply (blank_text_has_no_lines fixed8 #"   " (-1)). reflexivity.
Defined.

(** X15: when every run of consecutive characters of the text fits the
    width, the text comes back as one line, [text.strip()]: the leading
    spaces are left out by the loop, the spaces between the words are
    kept as they are, and the trailing ones are stripped; a text of
    spaces only gives no line. *)
Theorem fitting_text_is_one_line measure text width :
  (forall p, piece p text -> measure p <= width) ->
  wrap_text measure text width = if blank text then [] else [strip text].
Proof.
  intros Hfit. unfold wrap_text.
  pose proof (join_split_space text) as Hjoin.
  pose proof (split_space_no_space text) as Hwords.
  rewrite wrap_words_glue.
  - destruct (glue_words _ Hwords) as [Hs Ht].
    rewrite Hjoin in Hs, Ht. rewrite Ht, Hs. by destruct (blank text).
  - apply Forall_forall. intros x Hx. apply Hfit.
    rewrite <- Hjoin. by apply word_piece.
  - intros k. apply Hfit. rewrite <- Hjoin at 2. apply glue_piece.
Qed.

Lemma fitting_text_is_one_line_witness :
  let text := #"  Hi  there " in
  (forall p, piece p text -> fixed8 p <= 236)
  /\ wrap_text fixed8 text 236 = [#"Hi  there"].
Proof.
  assert (forall p, piece p #"  Hi  there " -> fixed8 p <= 236) as Hfit.
  { intros p (a & b & E). apply (f_equal length) in E.
    rewrite !length_app in E. cbn in E. unfold fixed8. lia. }
  split; [exact Hfit|].
  exact (fitting_text_is_one_line fixed8 #"  Hi  there " 236 Hfit).
Defined.

(** X16: a word without spaces that is wider than the line is cut into
    parts and no character is lost: the lines put end to end are the
    word, and each is non-empty and fits, or is one character wide. *)
Theorem long_word_is_cut_without_loss measure word width :
  Forall (fun c => c <> space) word ->
  width < measure word ->
  concat (wrap_text measure word width) = word
  /\ Forall (line_ok measure width) (wrap_text measure word width).
Proof.
  intros Hword Hlong. rewrite wrap_text_word by done.
  unfold wrap_word. destruct (Z.ltb_spec width (measure word)); [|lia].
  pose proof (split_long_concat measure width word [] []) as Hc.
  pose proof (split_long_ok measure width word [] []
                (Forall_nil_2 _) (or_introl eq_refl)) as Hok.
  destruct (split_long measure width word [] []) as [l1 t].
  destruct Hok as [Hl Ht]. cbn [fst]. cbn in Hc. split.
  - rewrite <- Hc. destruct t; cbn [truthy]; [by rewrite app_nil_r|].
    rewrite concat_app. cbn. by rewrite app_nil_r.
  - by apply flush_part.
Qed.

Lemma long_word_is_cut_without_loss_witness :
  let word := #"abcdefg" in
  Forall (fun c => c <> space) word
  /\ 24 < fixed8 word
  /\ concat (wrap_text fixed8 word 24) = word
  /\ Forall (line_ok fixed8 24) (wrap_text fixed8 word 24).
Proof.
  assert (Forall (fun c => c <> space) #"abcdefg") as Hword
    by (repeat (apply Forall_cons_2; [discriminate|]); apply Forall_nil_2).
  assert (24 < fixed8 #"abcdefg") as Hlong by (vm_compute; reflexivity).
  split; [exact Hword|]. split; [exact Hlong|].
  exact (long_word_is_cut_without_loss fixed8 #"abcdefg" 24 Hword Hlong).
Defined.

(** X17: a word wider than the line discards the line in progress:
    when the text ends in a space and such a word, the lines are those
    completed before the word and the parts of the word, and the line
    that was being filled, which is the last line of the text without
    the word, is in none of them. *)
Theorem line_before_long_word_is_dropped measure before word width :
  Forall (fun c => c <> space) word ->
  width < measure word ->
  let st := wrap_words measure width (split_space before) ([], []) in
  wrap_text measure before width
  = st.1 ++ (if truthy st.2 then [strip st.2] else [])
  /\ wrap_text measure (before ++ space :: word) width
     = st.1 ++ wrap_text measure word width.
Proof.
  intros Hword Hlong st. split.
  - unfold wrap_text. fold st. destruct st as [lines cur]. cbn [fst snd].
    destruct (truthy cur); [done|]. by rewrite app_nil_r.
  - rewrite (wrap_text_word measure width word) by done.
    unfold wrap_text, wrap_words, split_space.
    rewrite split_on_app by done. fold (split_space word).
    rewrite (split_space_word word) by done.
    rewrite fold_left_app. cbn [fold_left].
    fold (wrap_words measure width (split_on is_space before) ([], [])).
    fold (split_space before). fold st. destruct st as [lines cur].
    by rewrite wrap_word_long.
Qed.

Lemma line_before_long_word_is_dropped_witness :
  let word := #"abcdefg" in
  Forall (fun c => c <> space) word
  /\ 24 < fixed8 word
  /\ wrap_text fixed8 #"hi" 24 = [#"hi"]
  /\ wrap_text fixed8 #"hi abcdefg" 24 = wrap_text fixed8 word 24.
Proof.
  assert (Forall (fun c => c <> space) #"abcdefg") as Hword
    by (repeat (apply Forall_cons_2; [discriminate|]); apply Forall_nil_2).
  assert (24 < fixed8 #"abcdefg") as Hlong by (vm_compute; reflexivity).
  split; [exact Hword|]. split; [exact Hlong|].
  exact (line_before_long_word_is_dropped fixed8 #"hi" #"abcdefg" 24
           Hword Hlong).
Defined.

(** ** The rounds of [main] *)

Lemma poll_keys_eq ks s flag :
  poll_keys ks s flag
  = if bool_decide (#"ESC" ∈ ks) then Exited s
    else Running s (flag || bool_decide (#"ENT" ∈ ks)).
Proof.
  revert flag. induction ks as [|k ks IH]; intros flag.
  { cbn. by rewrite orb_false_r. }
  cbn [poll_keys]. unfold str_eqb.
  destruct (decide (k = #"ESC")) as [-> | Hesc].
  { rewrite bool_decide_eq_true_2 by done.
    rewrite bool_decide_eq_true_2 by (apply elem_of_cons; by left). done. }
  rewrite (bool_decide_eq_false_2 (k = #"ESC")) by done.
  assert (bool_decide (#"ESC" ∈ k :: ks) = bool_decide (#"ESC" ∈ ks)) as ->.
  { apply bool_decide_ext. rewrite elem_of_cons.
    split; [intros [E | ?]; [by destruct Hesc|done] | by right]. }
  destruct (decide (k = #"ENT")) as [-> | Hent].
  - rewrite (bool_decide_eq_true_2 (#"ENT" = #"ENT")) by done.
    rewrite (bool_decide_eq_true_2 (#"ENT" ∈ #"ENT" :: ks))
      by (apply elem_of_cons; by left).
    rewrite orb_true_r. cbn [andb]. destruct flag; cbn [negb];
      rewrite IH; by destruct (bool_decide (#"ESC" ∈ ks)).
  - rewrite (bool_decide_eq_false_2 (k = #"ENT")) by done. cbn [andb].
    rewrite IH.
    assert (bool_decide (#"ENT" ∈ k :: ks) = bool_decide (#"ENT" ∈ ks))
      as -> by (apply bool_decide_ext; rewrite elem_of_cons;
                split; [intros [E | ?]; [by destruct Hent|done] | by right]).
    done.
Qed.

Lemma poll_keys_state ks s flag : state_of (poll_keys ks s flag) = s.
Proof. rewrite poll_keys_eq. by destruct (bool_decide _). Qed.

Lemma main_round_state dev r s flag :
  state_of (main_round dev r s flag) = (prompt dev r s flag).1.
Proof.
  unfold main_round. destruct (prompt dev r s flag) as [s1 f1].
  apply poll_keys_state.
Qed.

Lemma main_loop_app dev rounds more s flag :
  main_loop dev (rounds ++ more) s flag
  = match main_loop dev rounds s flag with
    | Running s1 flag1 => main_loop dev more s1 flag1
    | Exited s1 => Exited s1
    end.
Proof.
  revert s flag. induction rounds as [|r rounds IH]; intros s flag; [done|].
  cbn [app main_loop]. by destruct (main_round dev r s flag).
Qed.

Lemma main_app dev api_key rounds more :
  main dev api_key (rounds ++ more)
  = match main dev api_key rounds with
    | Running s flag => main_loop dev more s flag
    | Exited s => Exited s
    end.
Proof.
  unfold main. cbv zeta. destruct (negb (truthy api_key)); [done|].
  destruct (connect_wifi dev _) as [up s1]. apply main_loop_app.
Qed.

Lemma main_start_posted dev api_key :
  posted (state_of (main dev api_key [])) = [].
Proof.
  unfold main. cbv zeta. destruct (negb (truthy api_key)); [done|].
  pose proof (connect_wifi_store dev
                (draw [Rect 0 0 1 1 2 false; Show] initial)) as Hstore.
  destruct (connect_wifi dev _) as [up s1]. cbn [snd] in Hstore.
  unfold store in Hstore. injection Hstore as _ _ Hp _.
  cbn [main_loop state_of]. exact Hp.
Qed.

Lemma reply_turn_length reply : (length (reply_turn reply) <= 1)%nat.
Proof.
  destruct reply as [detail|status body]; cbn [reply_turn length]; [lia|].
  destruct (status =? 200); [|cbn; lia].
  destruct (read_reply body) as [e|[v|]]; [destruct e| |]; cbn; try lia.
  destruct v; cbn; lia.
Qed.

Lemma payload_bounded s : bounded (Payload (payload_contents s) 50).
Proof.
  unfold bounded. cbn [contents maxOutputTokens].
  split; [done|]. split; [|split; [|done]].
  - rewrite payload_contents_view. cbn [tail].
    apply Forall_forall. intros e He. apply subseteq_drop in He.
    by apply list_elem_of_filter in He as [? _].
  - unfold payload_contents. cbn [length]. rewrite length_map.
    pose proof (payload_refs_length s). lia.
Qed.

Section Rounds.

Variable dev : device.

(** The messages after a request, whether or not it went out. *)
Lemma call_view_any reply s :
  wf s ->
  view (call_gemini_api dev reply s)
  = view s ++ (if (network_check dev s).1 then reply_turn reply else []).
Proof.
  intros Hwf. destruct (network_check dev s).1 eqn:Hon.
  - by apply call_view.
  - rewrite call_offline by done. checked dev s as s2.
    rewrite app_nil_r. unfold view.
    cbn [notify heap conversation]. by rewrite Hh, Hc.
Qed.

Lemma call_posted_any reply s :
  wf s ->
  posted (call_gemini_api dev reply s)
  = posted s ++ (if (network_check dev s).1
                 then [Payload (payload_contents s) 50] else []).
Proof.
  intros Hwf. destruct (network_check dev s).1 eqn:Hon.
  - by apply call_posted.
  - rewrite call_offline by done. checked dev s as s2.
    rewrite app_nil_r. cbn [notify posted]. exact Hp.
Qed.

Lemma prompt_grows r s flag :
  wf s ->
  let s' := (prompt dev r s flag).1 in
  (exists added, view s' = view s ++ added /\ (length added <= 2)%nat)
  /\ (exists sent, posted s' = posted s ++ sent /\ (length sent <= 1)%nat
                   /\ Forall bounded sent).
Proof.
  intros Hwf s'. unfold prompt in s'.
  assert ((exists added, view s = view s ++ added /\ (length added <= 2)%nat)
          /\ (exists sent, posted s = posted s ++ sent
                           /\ (length sent <= 1)%nat
                           /\ Forall bounded sent)) as Hsame.
  { split; exists []; rewrite app_nil_r; cbn; repeat split; auto with lia. }
  destruct flag; [|exact Hsame].
  destruct (typed r) as [t|]; [|exact Hsame].
  destruct (truthy t) eqn:Ht; [|exact Hsame].
  cbn [fst] in s'.
  assert (wf (say dev t (text_entry s))) as Hwf1 by by apply say_wf.
  assert (view (say dev t (text_entry s)) = view s ++ [Entry user t]) as Hv
    by by rewrite say_view.
  split.
  - eexists. unfold s'. rewrite call_view_any, Hv, <- app_assoc by done.
    split; [done|]. cbn [app length].
    destruct (network_check dev _).1; [|cbn; lia].
    pose proof (reply_turn_length (reply r)). lia.
  - eexists. unfold s'. rewrite call_posted_any by done.
    split; [done|].
    destruct (network_check dev _).1; cbn [length]; [|auto with lia].
    split; [lia|]. apply Forall_cons_2; [apply payload_bounded|done].
Qed.

Lemma main_loop_grows rounds s flag :
  wf s ->
  let s' := state_of (main_loop dev rounds s flag) in
  (exists added, view s' = view s ++ added
                 /\ (length added <= 2 * length rounds)%nat)
  /\ (exists sent, posted s' = posted s ++ sent
                   /\ (length sent <= length rounds)%nat
                   /\ Forall bounded sent).
Proof.
  revert s flag. induction rounds as [|r rounds IH]; intros s flag Hwf.
  { split; exists []; rewrite app_nil_r; cbn; repeat split; auto with lia. }
  cbn [main_loop].
  pose proof (main_round_wf dev r s flag Hwf) as Hwf1.
  pose proof (prompt_grows r s flag Hwf) as Hr. cbv zeta in Hr.
  rewrite <- main_round_state in Hr.
  destruct (main_round dev r s flag) as [s1 f1|s1]; cbn [state_of] in *.
  - destruct Hr as [(a1 & Hv1 & Hl1) (p1 & Hp1 & Hn1 & Hb1)].
    destruct (IH s1 f1 Hwf1) as [(a2 & Hv2 & Hl2) (p2 & Hp2 & Hn2 & Hb2)].
    split.
    + exists (a1 ++ a2). rewrite Hv2, Hv1, <- app_assoc, length_app.
      split; [done|]. cbn [length]. lia.
    + exists (p1 ++ p2). rewrite Hp2, Hp1, <- app_assoc, length_app.
      split; [done|]. split; [cbn [length]; lia|]. by apply Forall_app_2.
  - destruct Hr as [(a1 & Hv1 & Hl1) (p1 & Hp1 & Hn1 & Hb1)].
    split.
    + exists a1. split; [done|]. cbn [length]. lia.
    + exists p1. split; [done|]. split; [cbn [length]; lia|done].
Qed.

End Rounds.

(** X18: what the keys read at the end of a round do: the program
    exits when ESC is among them, the keys before it making no
    difference and the state being the one the round reached; otherwise
    the flag is set when it was set or ENT is among them. *)
Theorem keys_end_the_round dev r s flag :
  main_round dev r s flag
  = let '(s1, flag1) := prompt dev r s flag in
    if bool_decide (#"ESC" ∈ keys r) then Exited s1
    else Running s1 (flag1 || bool_decide (#"ENT" ∈ keys r)).
Proof.
  unfold main_round. destruct (prompt dev r s flag) as [s1 flag1].
  apply poll_keys_eq.
Qed.

(** X19: a round in which the user enters a text adds the message of
    the user to the conversation and then what the request adds: nothing
    when there is no network, and otherwise nothing, the answer or an
    empty message of the model, by the way the request ends.  So a
    question whose request fails stays in the conversation without an
    answer. *)
Theorem round_adds_question_and_answer dev t answer ks s :
  wf s ->
  truthy t = true ->
  let s1 := say dev t (text_entry s) in
  view (state_of (main_round dev (Round (Some t) answer ks) s true))
  = view s ++ Entry user t
             :: (if (network_check dev s1).1 then reply_turn answer else []).
Proof.
  intros Hwf Ht s1. rewrite main_round_state. unfold prompt.
  cbn [typed reply]. rewrite Ht. cbn [fst].
  rewrite call_view_any by by apply say_wf.
  rewrite say_view by done. by rewrite <- app_assoc.
Qed.

Lemma round_adds_question_and_answer_witness :
  view (state_of (main_round cardputer
                    (Round (Some #"Why?") (Response 500 Undecodable) [])
                    (said #"Hello") true))
  = [Entry user #"Hello"; Entry user #"Why?"].
Proof.
  apply (round_adds_question_and_answer cardputer #"Why?"
           (Response 500 Undecodable) [] (said #"Hello")).
  - apply wf_said.
  - reflexivity.
Defined.

(** X20: after the text entry was cancelled the flag is off: rounds in
    which neither ESC nor ENT is read change nothing, the text entry is
    not opened again, and the first round in which ENT is read, without
    ESC, turns the flag on with the state as it was. *)
Theorem cancelled_entry_waits_for_ENT dev rounds s :
  Forall quiet rounds ->
  main_loop dev rounds s false = Running s false
  /\ (forall r, #"ESC" ∉ keys r -> #"ENT" ∈ keys r ->
                main_loop dev (rounds ++ [r]) s false = Running s true).
Proof.
  intros Hquiet.
  assert (main_loop dev rounds s false = Running s false) as Hidle.
  { induction Hquiet as [|r rounds [Hesc Hent] _ IH]; [done|].
    cbn [main_loop]. unfold main_round, prompt. rewrite poll_keys_eq.
    by rewrite !bool_decide_eq_false_2 by done. }
  split; [exact Hidle|]. intros r Hesc Hent.
  rewrite main_loop_app, Hidle. cbn [main_loop].
  unfold main_round, prompt. rewrite poll_keys_eq.
  rewrite bool_decide_eq_false_2 by done.
  by rewrite bool_decide_eq_true_2 by done.
Qed.

Lemma cancelled_entry_waits_for_ENT_witness :
  let rounds := [Round None (Raises []) []; Round None (Raises []) [#"a"]] in
  let s := text_entry (said #"Hello") in
  main_loop cardputer rounds s false = Running s false
  /\ (forall r, #"ESC" ∉ keys r -> #"ENT" ∈ keys r ->
                main_loop cardputer (rounds ++ [r]) s false
                = Running s true).
Proof.
  apply (cancelled_entry_waits_for_ENT cardputer
           [Round None (Raises []) []; Round None (Raises []) [#"a"]]
           (text_entry (said #"Hello"))).
  repeat (apply Forall_cons_2; [|]); [| |apply Forall_nil_2];
    split; cbn [keys]; rewrite ?elem_of_cons, ?elem_of_nil;
    intros H; decompose [or] H; discriminate || done.
Defined.

(** X21: the conversation only grows from round to round: what [main]
    has stored and posted after some rounds is still there, unchanged
    and in place, after any further rounds, and each further round adds
    at most two messages and one request. *)
Theorem conversation_only_grows dev api_key rounds more :
  let s1 := state_of (main dev api_key rounds) in
  let s2 := state_of (main dev api_key (rounds ++ more)) in
  view s1 `prefix_of` view s2
  /\ posted s1 `prefix_of` posted s2
  /\ (length (view s2) <= length (view s1) + 2 * length more)%nat
  /\ (length (posted s2) <= length (posted s1) + length more)%nat.
Proof.
  intros s1 s2. unfold s1, s2. rewrite main_app.
  pose proof (main_wf dev api_key rounds) as Hwf.
  destruct (main dev api_key rounds) as [s flag|s]; cbn [state_of] in *.
  - destruct (main_loop_grows dev more s flag Hwf)
      as [(a & Hv & Hl) (p & Hp & Hn & _)].
    rewrite Hv, Hp, !length_app.
    split; [by exists a|]. split; [by exists p|]. lia.
  - split; [done|]. split; [done|]. lia.
Qed.

(** X22: every request that [main] posts, in any run, carries the
    persona as its first message and nowhere else, at most ten messages
    after it, and the output limit of 50 tokens; and there is at most
    one request per round. *)
Theorem every_payload_is_bounded dev api_key rounds :
  let s := state_of (main dev api_key rounds) in
  Forall bounded (posted s)
  /\ (length (posted s) <= length rounds)%nat.
Proof.
  intros s. unfold s.
  change rounds with ([] ++ rounds) at 1 2. rewrite main_app.
  pose proof (main_wf dev api_key []) as Hwf.
  pose proof (main_start_posted dev api_key) as Hp0.
  destruct (main dev api_key []) as [s0 flag|s0]; cbn [state_of] in *.
  - destruct (main_loop_grows dev rounds s0 flag Hwf)
      as [_ (p & Hp & Hn & Hb)].
    rewrite Hp, Hp0. cbn [app]. by split.
  - rewrite Hp0. split; [done|]. cbn [length]. lia.
Qed.

(** ** What a word wider than the line costs *)

Lemma split_on_word p w :
  Forall (fun c => p c = false) w -> split_on p w = [w].
Proof.
  induction 1 as [|c w Hc _ IH]; [done|].
  cbn [split_on]. by rewrite Hc, IH.
Qed.

Lemma tokens_word w :
  w <> [] -> Forall (fun c => isspace c = false) w -> tokens w = [w].
Proof.
  intros Hw Hc. unfold tokens. rewrite split_on_word by done.
  by destruct w.
Qed.

Lemma tokens_words lines :
  Forall (fun l => l <> [] /\ Forall (fun c => isspace c = false) l) lines ->
  tokens (join_space lines) = lines.
Proof.
  intros Hl. rewrite tokens_join.
  induction Hl as [|l lines [Hne Hc] _ IH]; [done|].
  cbn [map concat]. by rewrite tokens_word, IH.
Qed.

Lemma not_space c : isspace c = false -> c <> space.
Proof. intros Hc ->. by rewrite isspace_space in Hc. Qed.

Lemma no_spaces w :
  Forall (fun c => isspace c = false) w -> Forall (fun c => c <> space) w.
Proof.
  intros Hw. eapply Forall_impl; [exact Hw|]. intros c. apply not_space.
Qed.

Lemma split_space_pair a b :
  Forall (fun c => c <> space) a -> Forall (fun c => c <> space) b ->
  split_space (a ++ space :: b) = [a; b].
Proof.
  intros Ha Hb. unfold split_space. rewrite split_on_app by done.
  fold (split_space a). fold (split_space b).
  by rewrite (split_space_word a), (split_space_word b).
Qed.

Section Parts.

Variable measure : str -> Z.
Variable width : Z.

Lemma greedy_grow lines temp char :
  temp <> [] ->
  greedy measure width (lines ++ [temp]) ->
  greedy measure width (lines ++ [temp ++ [char]]).
Proof.
  intros Ht Hg i p q Hp Hq.
  destruct (decide (S i < length lines)%nat) as [Hlt|Hge].
  - rewrite lookup_app_l in Hp, Hq by lia.
    apply (Hg i p q); by rewrite lookup_app_l by lia.
  - apply lookup_app_Some in Hq as [Hq|[_ Hq]];
      [apply lookup_lt_Some in Hq; lia|].
    apply list_lookup_singleton_Some in Hq as [Hi <-].
    assert (S i = length lines) as Hlen by lia.
    rewrite lookup_app_l in Hp by lia.
    destruct (Hg i p temp) as (c & rest & -> & Hw).
    + by rewrite lookup_app_l by lia.
    + rewrite lookup_app_r by lia. by rewrite Hlen, Nat.sub_diag.
    + by exists c, (rest ++ [char]).
Qed.

Lemma greedy_flush lines temp char :
  width < measure (temp ++ [char]) ->
  greedy measure width (lines ++ [temp]) ->
  greedy measure width ((lines ++ [temp]) ++ [[char]]).
Proof.
  intros Hw Hg i p q Hp Hq.
  destruct (decide (S i < length (lines ++ [temp]))%nat) as [Hlt|Hge].
  - rewrite lookup_app_l in Hp, Hq by lia. by apply (Hg i p q).
  - apply lookup_app_Some in Hq as [Hq|[_ Hq]];
      [apply lookup_lt_Some in Hq; lia|].
    apply list_lookup_singleton_Some in Hq as [Hi <-].
    rewrite length_app in Hi, Hge. cbn [length] in Hi, Hge.
    assert (i = length lines) as -> by lia.
    rewrite lookup_app_l in Hp by (rewrite length_app; cbn; lia).
    rewrite lookup_app_r in Hp by lia.
    rewrite Nat.sub_diag in Hp. injection Hp as <-.
    by exists char, [].
Qed.

Lemma split_long_greedy word lines temp :
  temp <> [] ->
  greedy measure width (lines ++ [temp]) ->
  let '(lines1, temp1) := split_long measure width word lines temp in
  temp1 <> [] /\ greedy measure width (lines1 ++ [temp1]).
Proof.
  revert lines temp.
  induction word as [|char word IH]; intros lines temp Ht Hg;
    cbn [split_long]; [done|].
  destruct (Z.leb_spec (measure (temp ++ [char])) width).
  - apply IH; [by destruct temp|by apply greedy_grow].
  - destruct temp as [|c temp]; [done|]. cbn [truthy].
    apply IH; [done|by apply greedy_flush].
Qed.

(** The parts into which a word wider than the line is cut. *)
Lemma long_word_parts word :
  width < measure word ->
  let parts := (wrap_word measure width ([], []) word).1 in
  concat parts = word
  /\ Forall (line_ok measure width) parts
  /\ greedy measure width parts.
Proof.
  intros Hlong parts. unfold parts, wrap_word.
  destruct (Z.ltb_spec width (measure word)); [|lia].
  pose proof (split_long_concat measure width word [] []) as Hc.
  pose proof (split_long_ok measure width word [] []
                (Forall_nil_2 _) (or_introl eq_refl)) as Hok.
  assert (let '(lines1, temp1) := split_long measure width word [] [] in
          greedy measure width
            (if truthy temp1 then lines1 ++ [temp1] else lines1)) as Hg.
  { destruct word as [|c word]; [by intros i p q Hp|].
    assert (split_long measure width (c :: word) [] []
            = split_long measure width word [] [c]) as ->.
    { cbn [split_long truthy app]. by destruct (_ <=? _). }
    pose proof (split_long_greedy word [] [c]) as Hs.
    destruct (split_long measure width word [] [c]) as [l1 t1].
    destruct Hs as [Ht Hg]; [done|by intros [|i] p q Hp|].
    by destruct t1. }
  destruct (split_long measure width word [] []) as [l1 t].
  destruct Hok as [Hl Ht]. cbn [fst]. cbn in Hc.
  split; [|split; [by apply flush_part|exact Hg]].
  rewrite <- Hc. destruct t; cbn [truthy]; [by rewrite app_nil_r|].
  rewrite concat_app. cbn. by rewrite app_nil_r.
Qed.

(** What the loop holds when stripping does not widen a string. *)
Hypothesis strip_narrows : forall s, measure (strip s) <= measure s.

Lemma flush_within lines cur :
  Forall (within measure width) lines ->
  cur = [] \/ measure cur <= width ->
  Forall (within measure width)
         (if truthy cur then lines ++ [strip cur] else lines).
Proof.
  intros Hl Hcur. destruct cur as [|c cur]; [done|]. cbn [truthy].
  apply Forall_app_2; [done|]. apply Forall_cons_2; [|done].
  left. destruct Hcur as [|Hw]; [done|].
  pose proof (strip_narrows (c :: cur)). lia.
Qed.

Lemma wrap_word_within lines cur word :
  Forall (within measure width) lines ->
  cur = [] \/ measure cur <= width ->
  let st := wrap_word measure width (lines, cur) word in
  Forall (within measure width) st.1
  /\ (st.2 = [] \/ measure st.2 <= width).
Proof.
  intros Hl Hcur st. unfold st.
  destruct (Z.ltb_spec width (measure word)) as [Hlong|Hfit].
  - rewrite wrap_word_long by done. cbn [fst snd]. split; [|by left].
    apply Forall_app_2; [done|].
    destruct (long_word_parts word Hlong) as (_ & Hok & _).
    eapply Forall_impl; [exact Hok|]. by intros l [_ ?].
  - unfold wrap_word. destruct (Z.ltb_spec width (measure word)); [lia|].
    destruct (Z.leb_spec
                (measure (cur ++ (if truthy cur then [space] else [])
                              ++ word)) width).
    + cbn [fst snd]. split; [done|by right].
    + cbn [fst snd]. split; [by apply flush_within|by right].
Qed.

Lemma wrap_words_within words lines cur :
  Forall (within measure width) lines ->
  cur = [] \/ measure cur <= width ->
  let st := wrap_words measure width words (lines, cur) in
  Forall (within measure width) st.1
  /\ (st.2 = [] \/ measure st.2 <= width).
Proof.
  revert lines cur. induction words as [|word words IH];
    intros lines cur Hl Hcur; [done|].
  unfold wrap_words. cbn [fold_left].
  pose proof (wrap_word_within lines cur word Hl Hcur) as Hw.
  cbv zeta in Hw.
  destruct (wrap_word measure width (lines, cur) word) as [lines1 cur1].
  destruct Hw. by apply IH.
Qed.

Lemma wrap_text_within text :
  Forall (within measure width) (wrap_text measure text width).
Proof.
  unfold wrap_text.
  pose proof (wrap_words_within (split_space text) [] []
                (Forall_nil_2 _) (or_introl eq_refl)) as Hw.
  cbv zeta in Hw.
  destruct (wrap_words measure width (split_space text) ([], []))
    as [lines cur].
  destruct Hw. by apply flush_within.
Qed.

End Parts.

Lemma Forall_pieces {A} (P : A -> Prop) (ls : list (list A)) :
  Forall P (concat ls) -> Forall (Forall P) ls.
Proof.
  induction ls as [|l ls IH]; [done|]. cbn [concat].
  intros [Hl Hls]%Forall_app. apply Forall_cons_2; [done|by apply IH].
Qed.

Lemma fixed8_strip s : fixed8 (strip s) <= fixed8 s.
Proof.
  destruct (strip_segment s) as (pre & post & E).
  apply (f_equal length) in E. rewrite !length_app in E.
  unfold fixed8. lia.
Qed.

Lemma strip_blank ws : Forall (fun c => isspace c = true) ws -> strip ws = [].
Proof.
  intros Hws. unfold strip.
  by rewrite <- (app_nil_r ws), lstrip_spaces.
Qed.

Lemma wrap_first_word measure width a :
  measure a <= width -> wrap_word measure width ([], []) a = ([], a).
Proof.
  intros Hfit. unfold wrap_word.
  destruct (Z.ltb_spec width (measure a)); [lia|]. cbn [truthy app].
  by destruct (Z.leb_spec (measure a) width); [|lia].
Qed.

(** C3: where no word of [text.split(' ')] is wider than the limit the
    lines joined with single spaces have the tokens of the text, and for
    every text the characters of the lines are a subsequence of those of
    the text.  But a word wider than the limit costs more than the claim
    allows: when a word [a] that fits is followed by a space and a word
    [long] that does not, the lines are those of [long] alone, its parts
    cut as long as the width allows, and the word [a], which was not
    split, is not among the tokens of the lines. *)
Theorem words_before_long_word_are_lost :
  (forall measure text width,
     letters (concat (wrap_text measure text width))
       `sublist_of` letters text
     /\ (Forall (fun word => measure word <= width) (split_space text) ->
         tokens (join_space (wrap_text measure text width)) = tokens text))
  /\ (forall measure width a long,
        a <> [] -> Forall (fun c => isspace c = false) a ->
        long <> [] -> Forall (fun c => isspace c = false) long ->
        measure a <= width -> width < measure long ->
        let text := a ++ space :: long in
        let lines := wrap_text measure text width in
        tokens text = [a; long]
        /\ lines = wrap_text measure long width
        /\ concat lines = long
        /\ Forall (line_ok measure width) lines
        /\ greedy measure width lines
        /\ tokens (join_space lines) = lines
        /\ tokens (join_space lines) <> a :: lines).
Proof.
  split.
  - intros measure text width. split; [apply wrap_text_order|].
    intros Hfit. rewrite tokens_join. unfold wrap_text.
    pose proof (wrap_words_held measure width _ ([], []) Hfit) as E.
    destruct (wrap_words measure width (split_space text) ([], []))
      as [lines current_line].
    rewrite held_flush, E. unfold held. cbn [fst snd map concat app].
    rewrite tokens_nil. cbn [app].
    by rewrite <- tokens_join, join_split_space.
  - intros measure width a long Ha Hca Hl Hcl Hfit Hlong text lines.
    pose proof (no_spaces a Hca) as Hsa.
    pose proof (no_spaces long Hcl) as Hsl.
    assert (lines = (wrap_word measure width ([], []) long).1) as Hlines.
    { unfold lines, text, wrap_text, wrap_words.
      rewrite split_space_pair by done. cbn [fold_left].
      rewrite wrap_first_word by done.
      rewrite wrap_word_long by done. by cbn [truthy app]. }
    destruct (long_word_parts measure width long Hlong) as (Hc & Hok & Hg).
    rewrite <- Hlines in Hc, Hok, Hg.
    assert (tokens (join_space lines) = lines) as Htok.
    { apply tokens_words. apply Forall_forall. intros l Hin. split.
      - rewrite Forall_forall in Hok. by destruct (Hok l Hin).
      - rewrite <- Hc in Hcl. apply Forall_pieces in Hcl.
        rewrite Forall_forall in Hcl. by apply Hcl. }
    split.
    { unfold text. rewrite tokens_app by apply isspace_space.
      by rewrite !tokens_word. }
    split; [by rewrite (wrap_text_word measure width long)|].
    split; [done|]. split; [done|]. split; [done|]. split; [done|].
    rewrite Htok. intros E. apply (f_equal length) in E.
    cbn [length] in E. lia.
Qed.

Lemma words_before_long_word_are_lost_witness :
  tokens #"hi abcdefg" = [#"hi"; #"abcdefg"]
  /\ wrap_text fixed8 #"hi abcdefg" 24 = wrap_text fixed8 #"abcdefg" 24
  /\ tokens (join_space (wrap_text fixed8 #"hi abcdefg" 24))
     = [#"abc"; #"def"; #"g"].
Proof.
  assert (Forall (fun c => isspace c = false) #"hi") as Hhi
    by (repeat (apply Forall_cons_2; [reflexivity|]); apply Forall_nil_2).
  assert (Forall (fun c => isspace c = false) #"abcdefg") as Hlong
    by (repeat (apply Forall_cons_2; [reflexivity|]); apply Forall_nil_2).
  destruct (proj2 words_before_long_word_are_lost fixed8 24
              #"hi" #"abcdefg")
    as (Htokens & Hlines & _ & _ & _ & Hjoin & _);
    [discriminate | exact Hhi | discriminate | exact Hlong
     | vm_compute; discriminate | vm_compute; reflexivity |].
  split; [exact Htokens|]. split; [exact Hlines|].
  etrans; [exact Hjoin|reflexivity].
Defined.

(** C4: for every text the lines follow the order of the text, and the
    empty text gives no line; with plain spaces as the only whitespace
    every line is non-empty and fits or is a single character that is
    wider; and for every text, when stripping does not widen a string,
    every line fits or is a single character that is wider.  But the
    lines are stripped after they were tested for emptiness: when a word
    [a] is followed by a space and a word [ws] of whitespace other than
    spaces, and the two fit one by one and not together, the lines are
    [a] and the empty string. *)
Theorem lines_are_stripped_after_the_test :
  (forall measure text width,
     letters (concat (wrap_text measure text width))
       `sublist_of` letters text)
  /\ (forall measure width, wrap_text measure [] width = [])
  /\ (forall measure text width,
        plain_spaces text ->
        Forall (line_ok measure width) (wrap_text measure text width))
  /\ (forall measure text width,
        (forall s, measure (strip s) <= measure s) ->
        Forall (within measure width) (wrap_text measure text width))
  /\ (forall measure width a ws,
        a <> [] -> Forall (fun c => isspace c = false) a ->
        ws <> [] -> Forall (fun c => isspace c = true /\ c <> space) ws ->
        measure a <= width -> measure ws <= width ->
        width < measure (a ++ space :: ws) ->
        wrap_text measure (a ++ space :: ws) width = [a; []]).
Proof.
  split; [intros; apply wrap_text_order|].
  split; [intros; apply wrap_text_nil|].
  split; [intros; by apply wrap_text_plain_ok|].
  split; [intros; by apply wrap_text_within|].
  intros measure width a ws Ha Hca Hws Hcws Hfa Hfws Hwide.
  assert (Forall (fun c => c <> space) ws) as Hsws
    by (eapply Forall_impl; [exact Hcws|]; by intros c [_ ?]).
  assert (Forall (fun c => isspace c = true) ws) as Hbws
    by (eapply Forall_impl; [exact Hcws|]; by intros c [? _]).
  unfold wrap_text, wrap_words.
  rewrite split_space_pair by (done || by apply no_spaces).
  cbn [fold_left]. rewrite wrap_first_word by done.
  unfold wrap_word. destruct (Z.ltb_spec width (measure ws)); [lia|].
  destruct a as [|c a]; [done|]. cbn [truthy].
  change ((c :: a) ++ [space] ++ ws) with ((c :: a) ++ space :: ws).
  destruct (Z.leb_spec (measure ((c :: a) ++ space :: ws)) width); [lia|].
  destruct ws as [|w ws]; [done|]. cbn [truthy app].
  rewrite (strip_blank (w :: ws)) by done.
  pose proof (strip_clean (c :: a) 0 (clean_word _ Ha Hca)) as Hs.
  cbn [replicate] in Hs. rewrite app_nil_r in Hs. by rewrite Hs.
Qed.

Lemma lines_are_stripped_after_the_test_witness :
  wrap_text fixed8 a_space_newline 8 = [#"a"; []]
  /\ Forall (within fixed8 8) (wrap_text fixed8 a_space_newline 8)
  /\ Forall (line_ok fixed8 24) (wrap_text fixed8 #"hi abcdefg and more" 24).
Proof.
  destruct lines_are_stripped_after_the_test
    as (_ & _ & Hplain & Hwithin & Hempty).
  split; [|split].
  - apply (Hempty fixed8 8 #"a" ["010"%char]);
      [discriminate | by repeat constructor | discriminate
       | by repeat constructor | vm_compute; discriminate
       | vm_compute; discriminate | vm_compute; reflexivity].
  - apply (Hwithin fixed8 a_space_newline 8). apply fixed8_strip.
  - apply (Hplain fixed8 #"hi abcdefg and more" 24).
    unfold plain_spaces. repeat constructor; vm_compute; done.
Defined.

(** The text "a", space, line feed with room for one character: the
    second line is empty, so not every line is as the claim says. *)
Example wrap_text_returns_empty_line :
  wrap_text fixed8 a_space_newline 8 = [#"a"; []]
  /\ ~ Forall (line_ok fixed8 8) (wrap_text fixed8 a_space_newline 8).
Proof.
  split; [reflexivity|].
  intros H. apply Forall_cons_1 in H as [_ H].
  apply Forall_cons_1 in H as [[H _] _]. by apply H.
Qed.

(** Under a measure for which stripping widens, which no font is, the
    line that is returned was never measured: the word with its line
    feed fits, the stripped line does not. *)
Example stripped_line_was_not_measured :
  wrap_text odd_font ab_newline 10 = [#"ab"]
  /\ odd_font ab_newline <= 10 /\ 10 < odd_font #"ab".
Proof. vm_compute. repeat split; discriminate || reflexivity. Qed.

(** ** What the payload holds *)

(** C5: the contents of the payload are the persona and then the last
    ten, or all if there are fewer, of the stored messages other than
    the persona, in order; the placeholder of the request itself is
    appended after the payload is put together and is not among them.
    But an empty message of the model that an earlier request left in
    the conversation is sent like any other: after a reply with status
    200 that the check rejects, the next message of the user goes out
    with the empty message of the model before it. *)
Theorem stale_placeholder_is_sent :
  (forall dev answer s,
     wf s ->
     (network_check dev s).1 = true ->
     let stored := filter (fun e => e <> SYSTEM_PROMPT) (view s) in
     let bot := length (heap s) in
     exists refs,
       posted (call_gemini_api dev answer s)
       = posted s ++ [Payload (SYSTEM_PROMPT :: map (deref (heap s)) refs) 50]
       /\ map (deref (heap s)) refs
          = drop (length stored - 2 * MAX_CONVERSATION_HISTORY) stored
       /\ (length refs <= 2 * MAX_CONVERSATION_HISTORY)%nat
       /\ (refs ⊆ conversation s)
       /\ (bot ∉ refs)
       /\ conversation (sending (network_check dev s).2)
          = conversation s ++ [bot])
  /\ (forall dev s body t answer,
        wf s ->
        (network_check dev s).1 = true ->
        read_reply body = inr None
        \/ (exists e, read_reply body = inl e
                      /\ (e = JSONDecodeError \/ e = KeyError
                          \/ e = IndexError)) ->
        Entry user t <> SYSTEM_PROMPT ->
        let stored := filter (fun e => e <> SYSTEM_PROMPT) (view s) in
        let s1 := call_gemini_api dev (Response 200 body) s in
        let s2 := say dev t s1 in
        (network_check dev s2).1 = true ->
        view s2 = view s ++ [Entry model []; Entry user t]
        /\ posted (call_gemini_api dev answer s2)
           = posted s
             ++ [Payload (payload_contents s) 50;
                 Payload (SYSTEM_PROMPT
                            :: drop (length stored - 8) stored
                            ++ [Entry model []; Entry user t]) 50]).
Proof.
  split.
  - intros dev answer s Hwf Hon stored bot. exists (payload_refs s).
    split; [by apply call_posted|].
    split.
    { pose proof (payload_contents_view s) as E. cbv zeta in E.
      unfold payload_contents in E. by injection E. }
    split; [apply payload_refs_length|].
    split; [apply payload_refs_subseteq|].
    split.
    { intros Hin. apply payload_refs_subseteq in Hin.
      unfold wf in Hwf. rewrite Forall_forall in Hwf.
      apply Hwf in Hin. unfold bot in Hin. lia. }
    pose proof (network_check_store dev s) as Hstore.
    unfold store in Hstore. injection Hstore as Hh Hc _ _.
    by rewrite sending_conversation, Hh, Hc.
  - intros dev s body t answer Hwf Hon Hbad Ht stored s1 s2 Hon2.
    assert (reply_turn (Response 200 body) = [Entry model []]) as Hturn.
    { cbn [reply_turn]. change (200 =? 200) with true. cbv iota.
      by destruct Hbad as [-> | (e & -> & [-> | [-> | ->]])]. }
    assert (view s1 = view s ++ [Entry model []]) as Hv1
      by (unfold s1; by rewrite call_view, Hturn).
    assert (wf s1) as Hwf1 by by apply call_gemini_api_wf.
    assert (view s2 = view s ++ [Entry model []; Entry user t]) as Hv2.
    { unfold s2. by rewrite say_view, Hv1, <- app_assoc. }
    assert (wf s2) as Hwf2 by by apply say_wf.
    split; [exact Hv2|].
    rewrite call_posted by done.
    assert (posted s2 = posted s1) as -> by done.
    unfold s1 at 1. rewrite call_posted by done.
    rewrite <- app_assoc. cbn [app]. do 3 f_equal.
    rewrite payload_contents_view. cbv zeta. f_equal.
    rewrite Hv2, filter_app. fold stored.
    rewrite filter_cons_True by (by intros [=]).
    rewrite filter_cons_True by done. rewrite filter_nil.
    rewrite length_app. cbn [length].
    replace (length stored + 2 - 2 * MAX_CONVERSATION_HISTORY)%nat
      with (length stored - 8)%nat by (unfold MAX_CONVERSATION_HISTORY; lia).
    f_equal. apply drop_app_le. lia.
Qed.

Lemma stale_placeholder_is_sent_witness :
  let s := said #"Hello" in
  let s2 := say cardputer #"Again"
              (call_gemini_api cardputer empty_object_reply s) in
  view s2 = [Entry user #"Hello"; Entry model []; Entry user #"Again"]
  /\ posted (call_gemini_api cardputer (ok_reply #"Hi") s2)
     = [Payload [SYSTEM_PROMPT; Entry user #"Hello"] 50;
        Payload [SYSTEM_PROMPT; Entry user #"Hello"; Entry model [];
                 Entry user #"Again"] 50].
Proof.
  apply (proj2 stale_placeholder_is_sent cardputer (said #"Hello")
           (Decoded #"{}" (Some (JObj []))) #"Again" (ok_reply #"Hi")).
  - apply wf_said.
  - reflexivity.
  - left. reflexivity.
  - intros E. apply (f_equal (fun e => length (text e))) in E.
    vm_compute in E. discriminate.
  - reflexivity.
Defined.

(** The same through [main]: the second request carries the empty
    message of the model that the first one left behind. *)
Example stale_placeholder_through_main :
  map contents (posted (state_of (main cardputer #"key" hello_again)))
  = [[SYSTEM_PROMPT; Entry user #"Hello"];
     [SYSTEM_PROMPT; Entry user #"Hello"; Entry model [];
      Entry user #"Again"]].
Proof. vm_compute. reflexivity. Qed.
